(** * JsonQuery and BaseConnection: a shallow embedding

    The development follows [src/services/query.js] (class [JsonQuery]) and
    [src/services/baseDb.js] (class [BaseConnection]).

    - JavaScript values are a tree type [value]; numbers are binary64
      floating-point numbers, strings are [string], arrays are lists, plain
      objects are association lists in insertion order.
    - A thrown exception is an explicit [Throw] outcome.
    - The model registry is an ordinary object: a lookup in it finds its own
      properties and the members it inherits from [Object.prototype].
    - The object handed to [getQuery] lives in a store of objects and is
      addressed by a location, because [getQuery] writes into it. *)

From Stdlib Require Import String Ascii ZArith Floats Bool Lia DecimalString DecimalNat Sorted.
From stdpp Require Import base list.

Set Warnings "-register-all".

Local Open Scope string_scope.
Local Open Scope list_scope.

(** ** Values *)

Definition handle := nat.

Inductive value : Type :=
| VUndef
| VNull
| VBool (b : bool)
| VNum (q : float)
| VStr (s : string)
| VArr (items : list value)
| VObj (props : list (string * value))
| VModel (h : handle)
| VNative (name : string).

(** A plain object: own enumerable properties, in insertion order. *)
Definition obj := list (string * value).

(** Outcome of a computation that may throw.  What a computation that
    throws leaves behind in the state is not tracked. *)
Inductive js_error : Type :=
| TypeError
| TranslationFailure.

Inductive outcome (A : Type) : Type :=
| Ok (a : A)
| Throw (e : js_error).
Arguments Ok {A} a.
Arguments Throw {A} e.

Definition obind {A B} (m : outcome A) (k : A -> outcome B) : outcome B :=
  match m with
  | Ok a => k a
  | Throw e => Throw e
  end.

Declare Scope js_scope.
Delimit Scope js_scope with js.
Notation "'let!' x ':=' m 'in' k" := (obind m (fun x => k))
  (at level 10, x name, m at level 100, k at level 200) : js_scope.
Local Open Scope js_scope.

(** ** Primitive operations of the language *)

(** [typeof v]; a model handle is a class, hence a function.  [VNative n]
    is the function every ordinary object inherits under the name [n]:
    [VNative "constructor"] is [Object], [VNative "toString"] is
    [Object.prototype.toString], and so on. *)
Definition typeof (v : value) : string :=
  match v with
  | VUndef => "undefined"
  | VNull => "object"
  | VBool _ => "boolean"
  | VNum _ => "number"
  | VStr _ => "string"
  | VArr _ => "object"
  | VObj _ => "object"
  | VModel _ => "function"
  | VNative _ => "function"
  end.

(** The falsy numbers: [0], [-0] and [NaN]. *)
Definition is_zero (q : float) : bool := (q =? 0)%float || PrimFloat.is_nan q.

(** The integer a number is, when it is one. *)
Definition integer_of (q : float) : option Z :=
  match Prim2SF q with
  | S754_zero _ => Some 0%Z
  | S754_finite s m e =>
      let z := if s then Z.neg m else Z.pos m in
      if (0 <=? e)%Z then Some (z * 2 ^ e)%Z
      else if (Z.pos m mod 2 ^ (- e) =? 0)%Z then Some (z / 2 ^ (- e))%Z
      else None
  | _ => None
  end.

(** Truthiness: [undefined], [null], [false], [0] and [''] are falsy. *)
Definition truthy (v : value) : bool :=
  match v with
  | VUndef | VNull => false
  | VBool b => b
  | VNum q => negb (is_zero q)
  | VStr s => negb (s =? "")
  | VArr _ | VObj _ | VModel _ | VNative _ => true
  end.

(** [a || b] *)
Definition js_or (a b : value) : value := if truthy a then a else b.

Definition nullish (v : value) : bool :=
  match v with
  | VUndef | VNull => true
  | _ => false
  end.

(** [a ?? b] *)
Definition coalesce (a b : value) : value := if nullish a then b else a.

(** [Array.isArray] *)
Definition isArray (v : value) : bool :=
  match v with VArr _ => true | _ => false end.

(** lodash [isObject]: arrays, objects and functions. *)
Definition isObject (v : value) : bool :=
  match v with
  | VArr _ | VObj _ | VModel _ | VNative _ => true
  | _ => false
  end.

(** Own property lookup in a plain object ([undefined] when missing). *)
Fixpoint assoc (k : string) (o : obj) : option value :=
  match o with
  | [] => None
  | (k', v) :: rest => if k' =? k then Some v else assoc k rest
  end.

Definition prop (o : obj) (k : string) : value :=
  match assoc k o with
  | Some v => v
  | None => VUndef
  end.

(** [o[k] = v]: overwrite in place, or append a new property. *)
Fixpoint set_prop (o : obj) (k : string) (v : value) : obj :=
  match o with
  | [] => [(k, v)]
  | (k', v') :: rest =>
      if k' =? k then (k', v) :: rest else (k', v') :: set_prop rest k v
  end.

(** ** Strings *)

Definition chars := list_ascii_of_string.
Definition of_chars := string_of_list_ascii.

Definition char_in (c : ascii) (set : list ascii) : bool :=
  existsb (Ascii.eqb c) set.

(** [s.substr(0, 1) === c] *)
Definition starts_with_char (c : ascii) (s : string) : bool :=
  match s with
  | String c' _ => Ascii.eqb c' c
  | EmptyString => false
  end.

(** [s.includes(c)] for a one-character needle. *)
Definition includes_char (c : ascii) (s : string) : bool :=
  char_in c (chars s).

Fixpoint drop_leading (set : list ascii) (l : list ascii) : list ascii :=
  match l with
  | [] => []
  | c :: rest => if char_in c set then drop_leading set rest else l
  end.

(** lodash [_.trim(s, set)]: strip the characters of [set] from both ends. *)
Definition trim (s : string) (set : string) : string :=
  of_chars (rev (drop_leading (chars set) (rev (drop_leading (chars set) (chars s))))).

(** [s.split(sep)] for a one-character separator; the accumulator holds the
    current segment, reversed. *)
Fixpoint split_go (sep : ascii) (acc : list ascii) (l : list ascii) : list string :=
  match l with
  | [] => [of_chars (rev acc)]
  | c :: rest =>
      if Ascii.eqb c sep then of_chars (rev acc) :: split_go sep [] rest
      else split_go sep (c :: acc) rest
  end.

Definition split (s : string) (sep : ascii) : list string :=
  split_go sep [] (chars s).

(** ** The Model Registry

    [this.models()] returns the registry object, or [null] (the constructor's
    default callback).  The registry is an ordinary object, as the one
    [BaseConnection] keeps ([models = {}]): besides its own properties it has
    the members of [Object.prototype]. *)
Definition registry := option obj.

(** The names of the functions an ordinary object inherits. *)
Definition Object_prototype_names : list string :=
  ["constructor"; "__defineGetter__"; "__defineSetter__"; "hasOwnProperty";
   "__lookupGetter__"; "__lookupSetter__"; "isPrototypeOf";
   "propertyIsEnumerable"; "toString"; "valueOf"; "toLocaleString"].

(** What an ordinary object inherits under the name [k]: one of these
    functions, [Object.prototype] itself (an object without enumerable
    property) under [__proto__], or nothing. *)
Definition inherited (k : string) : value :=
  if k =? "__proto__" then VObj []
  else if existsb (String.eqb k) Object_prototype_names then VNative k
  else VUndef.

(** [o[k]] on an ordinary object: an own property wins, whatever it holds. *)
Definition member (o : obj) (k : string) : value :=
  match assoc k o with
  | Some v => v
  | None => inherited k
  end.

(** [models[k]]: reading a property of [null] throws. *)
Definition models_get (models : registry) (k : string) : outcome value :=
  match models with
  | Some r => Ok (member r k)
  | None => Throw TypeError
  end.

(** Traverse a list with a fallible function, left to right. *)
Fixpoint mapM {A B} (f : A -> outcome B) (l : list A) : outcome (list B) :=
  match l with
  | [] => Ok []
  | x :: rest =>
      let! y := f x in
      let! ys := mapM f rest in
      Ok (y :: ys)
  end.

(** ** JsonQuery *)

Record JsonQuery : Type := mkJsonQuery {
  models : registry;
  page : float;
  perPage : float;
  isAllPage : bool;
  orderBy : list value;
  expands : list value;
  attributes : list value;
  filter : value;
  additionalFilter : value
}.

(** [getOffset] *)
Definition getOffset (this : JsonQuery) : float :=
  ((page this - 1) * perPage this)%float.

(** [getPage], [getPerPage], [getIsAllPage] *)
Definition getPage (this : JsonQuery) : float := page this.
Definition getPerPage (this : JsonQuery) : float := perPage this.
Definition getIsAllPage (this : JsonQuery) : bool := isAllPage this.

(** The [filter] callback of [getOrderBy]. *)
Definition is_order_token (s : value) : bool :=
  match s with
  | VStr t => negb (t =? "")
  | _ => false
  end.

(** The [map] callback of [getOrderBy], on a string token. *)
Definition order_term (models : registry) (query : string) : outcome value :=
  let directionDesc := starts_with_char "-" query in
  let isRelatedColumn := includes_char "$" query in
  let orderQuery := trim query "$-" in
  let orderSplit := split orderQuery "." in
  let seg0 := nth 0 orderSplit "" in
  let column := match orderSplit with
                | _ :: seg1 :: _ => seg1
                | _ => seg0
                end in
  let! found := models_get models seg0 in
  let relation := coalesce found VNull in
  let result := if directionDesc then [VStr column; VStr "DESC"]
                else [VStr column; VStr "ASC"] in
  Ok (VArr (if isRelatedColumn && truthy relation
            then VObj [("model", relation); ("as", VStr seg0)] :: result
            else result)).

Definition order_term_of (models : registry) (s : value) : outcome value :=
  match s with
  | VStr query => order_term models query
  | _ => Throw TypeError
  end.

(** [getOrderBy(field)]: [field || this.orderBy] must have a [filter]
    method, that is, be an array. *)
Definition getOrderBy (this : JsonQuery) (field : value) : outcome (list value) :=
  let models := models this in
  let! tokens := (if truthy field
                  then match field with
                       | VArr l => Ok l
                       | _ => Throw TypeError
                       end
                  else Ok (orderBy this)) in
  mapM (order_term_of models) (List.filter is_order_token tokens).

(** ** lodash [_.merge]

    [merge object source] is the content of [object] after
    [_.merge(object, source)] of lodash 4: the destination is updated key by
    key, plain objects and arrays recursively, arrays by index.  The model
    covers trees of arrays and plain objects; an array has indexed elements
    only (a named property assigned to an array is not kept), a model handle
    is replaced as a whole, and the property names [__proto__] and
    [constructor] are ordinary names. *)

Definition key_of_index (n : nat) : string :=
  NilEmpty.string_of_uint (Nat.to_uint n).

Definition index_of_key (k : string) : option nat :=
  match NilEmpty.uint_of_string k with
  | Some u =>
      let n := Nat.of_uint u in
      if key_of_index n =? k then Some n else None
  | None => None
  end.

(** [l[i] = v] on an array, growing it when [i] is past the end. *)
Definition arr_set (l : list value) (i : nat) (v : value) : list value :=
  if (i <? length l)%nat then <[i := v]> l
  else l ++ replicate (i - length l) VUndef ++ [v].

(** [object[key]], [key in object] and [object[key] = v] on a destination.
    An array carries indexed elements only. *)
Definition get_key (object : value) (key : string) : value :=
  match object with
  | VObj o => prop o key
  | VArr l =>
      match index_of_key key with
      | Some i => nth i l VUndef
      | None => VUndef
      end
  | _ => VUndef
  end.

Definition has_key (object : value) (key : string) : bool :=
  match object with
  | VObj o => match assoc key o with Some _ => true | None => false end
  | VArr l =>
      match index_of_key key with
      | Some i => (i <? length l)%nat
      | None => false
      end
  | _ => false
  end.

Definition set_key (object : value) (key : string) (v : value) : value :=
  match object with
  | VObj o => VObj (set_prop o key v)
  | VArr l =>
      match index_of_key key with
      | Some i => VArr (arr_set l i v)
      | None => object
      end
  | _ => object
  end.

(** [assignMergeValue]: an [undefined] source value never overwrites. *)
Definition assignMergeValue (object : value) (key : string) (v : value) : value :=
  match v with
  | VUndef => if has_key object key then object else set_key object key v
  | _ => set_key object key v
  end.

(** lodash [isLength] on the [length] property of an object. *)
Definition array_like_length (o : obj) : option nat :=
  match prop o "length" with
  | VNum q =>
      match integer_of q with
      | Some z =>
          if (0 <=? z)%Z && (z <=? 9007199254740991)%Z
          then Some (Z.to_nat z) else None
      | None => None
      end
  | _ => None
  end.

(** [copyArray] of an array-like object. *)
Definition copy_array_like (o : obj) (n : nat) : list value :=
  List.map (fun i => prop o (key_of_index i)) (seq 0 n).

(** The destination chosen by [baseMergeDeep] before it recurses. *)
Definition merge_target (objValue srcValue : value) : value :=
  match srcValue with
  | VArr _ =>
      match objValue with
      | VArr _ => objValue
      | VObj o =>
          match array_like_length o with
          | Some n => VArr (copy_array_like o n)
          | None => VArr []
          end
      | _ => VArr []
      end
  | VObj _ =>
      match objValue with
      | VObj _ | VArr _ => objValue
      | _ => VObj []
      end
  | _ => srcValue
  end.

Definition is_common (srcValue : value) : bool :=
  match srcValue with
  | VArr _ | VObj _ => true
  | _ => false
  end.

(** One key of [baseMerge]; [rec] merges [srcValue] into a destination. *)
Definition merge_key (rec : value -> value) (object : value) (key : string)
    (srcValue : value) : value :=
  if isObject srcValue then
    let newValue := merge_target (get_key object key) srcValue in
    assignMergeValue object key (if is_common srcValue then rec newValue else newValue)
  else assignMergeValue object key srcValue.

Fixpoint baseMerge (source : value) (object : value) {struct source} : value :=
  match source with
  | VArr items =>
      (fix each (items : list value) (i : nat) (object : value) : value :=
         match items with
         | [] => object
         | srcValue :: rest =>
             each rest (S i)
                  (merge_key (baseMerge srcValue) object (key_of_index i) srcValue)
         end) items 0%nat object
  | VObj props =>
      (fix each (props : list (string * value)) (object : value) : value :=
         match props with
         | [] => object
         | (key, srcValue) :: rest =>
             each rest (merge_key (baseMerge srcValue) object key srcValue)
         end) props object
  | _ => object
  end.

(** [Object(v)]: objects are themselves; the wrapper of a primitive has no
    own enumerable property. *)
Definition to_object (v : value) : value :=
  match v with
  | VArr _ | VObj _ | VModel _ | VNative _ => v
  | _ => VObj []
  end.

Definition merge (object source : value) : value :=
  if truthy source then baseMerge source (to_object object) else to_object object.

(** ** The store of descriptor objects

    [getQuery] assigns to the properties of the object it is given and
    returns that object.  Objects handed to it live in a store and are named
    by their location; the receiver [this] is part of the state too. *)

Definition loc := nat.

Record world : Type := mkWorld {
  store : list obj;
  self : JsonQuery
}.

Definition M (A : Type) : Type := world -> outcome (A * world).

Definition ret {A} (a : A) : M A := fun w => Ok (a, w).

Definition bind {A B} (m : M A) (k : A -> M B) : M B :=
  fun w => match m w with
           | Ok (a, w') => k a w'
           | Throw e => Throw e
           end.

Notation "x <- m ;; k" := (bind m (fun x => k))
  (at level 20, m at level 99, k at level 200, only parsing) : js_scope.
Notation "m ;; k" := (bind m (fun _ => k))
  (at level 100, k at level 200, only parsing, right associativity) : js_scope.

Definition lift {A} (o : outcome A) : M A :=
  fun w => match o with
           | Ok a => Ok (a, w)
           | Throw e => Throw e
           end.

Definition get_this : M JsonQuery := fun w => Ok (self w, w).

(** A fresh object literal. *)
Definition alloc (o : obj) : M loc :=
  fun w => Ok (length (store w), mkWorld (store w ++ [o]) (self w)).

(** [l.k] *)
Definition read (l : loc) (k : string) : M value :=
  fun w => match store w !! l with
           | Some o => Ok (prop o k, w)
           | None => Throw TypeError
           end.

(** [l.k = v] *)
Definition write (l : loc) (k : string) (v : value) : M unit :=
  fun w => match store w !! l with
           | Some o => Ok (tt, mkWorld (<[l := set_prop o k v]> (store w)) (self w))
           | None => Throw TypeError
           end.

(** [0 < q] *)
Definition num_gt0 (q : float) : bool := (0 <? q)%float.

(** [v.length > 0] for the result of a merge. *)
Definition length_gt0 (v : value) : bool :=
  match v with
  | VArr l => (0 <? length l)%nat
  | VObj o => match prop o "length" with
              | VNum q => num_gt0 q
              | _ => false
              end
  | _ => false
  end.

(** ** Property keys

    [o[k]] turns [k] into a string first.  Strings, [undefined], [null],
    booleans, [NaN], the infinities, the integers up to 2^53 in magnitude (in
    plain decimal digits), arrays of those, plain objects and inherited
    functions are rendered as the language does.  Any other number, a
    fraction or a larger integer, is rendered by its mantissa and binary
    exponent, which is not the language's decimal rendering, and a model
    handle is rendered as an object; neither occurs as a key below. *)
Definition mantissa_and_exponent (q : float) : string :=
  match Prim2SF q with
  | S754_finite s m e =>
      (if s then "-" else "")
      ++ NilZero.string_of_int (Z.to_int (Z.pos m)) ++ "p"
      ++ NilZero.string_of_int (Z.to_int e)
  | _ => "0"
  end.

Definition number_to_string (q : float) : string :=
  if PrimFloat.is_nan q then "NaN"
  else if (q =? infinity)%float then "Infinity"
  else if (q =? neg_infinity)%float then "-Infinity"
  else match integer_of q with
       | Some z =>
           if (Z.abs z <=? 2 ^ 53)%Z then NilZero.string_of_int (Z.to_int z)
           else mantissa_and_exponent q
       | None => mantissa_and_exponent q
       end.

Fixpoint join (sep : string) (l : list string) : string :=
  match l with
  | [] => ""
  | [s] => s
  | s :: rest => s ++ sep ++ join sep rest
  end.

Fixpoint to_key (v : value) : string :=
  match v with
  | VUndef => "undefined"
  | VNull => "null"
  | VBool true => "true"
  | VBool false => "false"
  | VNum q => number_to_string q
  | VStr s => s
  | VArr items =>
      join "," (List.map (fun x => if nullish x then "" else to_key x) items)
  | VObj _ => "[object Object]"
  | VModel _ => "[object Object]"
  | VNative n =>
      "function " ++ (if n =? "constructor" then "Object" else n)
      ++ "() { [native code] }"
  end.

(** Named own properties read by destructuring; an array has none of the
    names used here. *)
Definition own_props (v : value) : obj :=
  match v with
  | VObj o => o
  | _ => []
  end.

(** Keep the entries that were produced. *)
Fixpoint produced {A} (l : list (option A)) : list A :=
  match l with
  | [] => []
  | Some x :: rest => x :: produced rest
  | None :: rest => produced rest
  end.

Section Translator.

(** [JsonQuerySequelize.toQuery], the filter translator of
    [src/adapters/JsonQuerySequelize]; its source is not part of the files at
    hand, so it is a parameter of the development.  A malformed expression
    makes it throw. *)
Variable toQuery : value -> outcome value.

(** [_validateAttributes] *)
Definition _validateAttributes (attributes : value) : value := attributes.

(** [_parseWhere] *)
Definition _parseWhere (conditions : value) : outcome value := toQuery conditions.

(** One round of the [forEach] of [getInclude]: [Some] entry when something
    is pushed to [includes]. *)
Definition include_entry (this : JsonQuery) (expand : value) : outcome (option value) :=
  if typeof expand =? "string" then Ok (Some expand)
  else if typeof expand =? "object" then
    match expand with
    | VNull => Throw TypeError
    | _ =>
        let e := own_props expand in
        let name := prop e "name" in
        let modelName := prop e "modelName" in
        let where_ := prop e "where" in
        let required := prop e "required" in
        let limit := prop e "limit" in
        let separate := prop e "separate" in
        let order := prop e "order" in
        let attributes := prop e "attributes" in
        if truthy name then
          let! byName := models_get (models this) (to_key name) in
          let! byModelName := models_get (models this) (to_key modelName) in
          if truthy (js_or byName byModelName) then
            let! orderPart :=
              (if truthy order
               then let! o := getOrderBy this order in Ok [("order", VArr o)]
               else Ok []) in
            let! wherePart :=
              (if truthy where_
               then let! w := _parseWhere where_ in Ok [("where", w)]
               else Ok []) in
            Ok (Some (VObj (
              [("model", js_or byModelName byName); ("as", name)]
              ++ (if typeof required =? "boolean" then [("required", required)] else [])
              ++ (if typeof limit =? "number" then [("limit", limit)] else [])
              ++ (if typeof separate =? "boolean" then [("separate", separate)] else [])
              ++ orderPart
              ++ (if truthy attributes
                  then [("attributes", _validateAttributes attributes)] else [])
              ++ wherePart)))
          else Ok None
        else Ok None
    end
  else Ok None.

(** [getInclude] *)
Definition getInclude (this : JsonQuery) : outcome (list value) :=
  let! entries := mapM (include_entry this) (expands this) in
  Ok (produced entries).



(** The constructor: every field falls back to its initial value when the
    configuration holds something of the wrong shape. *)
Definition new_JsonQuery (config : obj) (getModels : registry) : outcome JsonQuery :=
  let page : float := match prop config "page" with
                      | VNum q => if num_gt0 q then q else 1%float
                      | _ => 1%float
                      end in
  let perPage : float := match prop config "perPage" with
                         | VNum q => if num_gt0 q then q else 20%float
                         | _ => 20%float
                         end in
  let isAllPage := match prop config "allPage" with
                   | VBool b => b
                   | _ => false
                   end in
  let orderBy := match prop config "orderBy" with
                 | VArr l => l
                 | _ => []
                 end in
  let expands := match prop config "expands" with
                 | VArr l => l
                 | _ => []
                 end in
  let attributes := match prop config "attributes" with
                    | VArr l => match _validateAttributes (VArr l) with
                                | VArr l' => l'
                                | _ => []
                                end
                    | _ => []
                    end in
  let! filter := _parseWhere (coalesce (prop config "filter") (VObj [])) in
  let! additionalFilter :=
    _parseWhere (coalesce (prop config "additionalFilter") (VObj [])) in
  Ok (mkJsonQuery getModels page perPage isAllPage orderBy expands attributes
                  filter additionalFilter).

(** [getQuery(queryConfig, isOne)]: [None] is an omitted first argument, for
    which a fresh [{}] is made. *)
Definition getQuery (queryConfig : option loc) (isOne : bool) : M loc :=
  this <- get_this ;;
  queryConfig <- match queryConfig with
                 | Some l => ret l
                 | None => alloc []
                 end ;;
  (if negb (isAllPage this) then
     offset <- read queryConfig "offset" ;;
     write queryConfig "offset"
       (if isOne then VNull else coalesce offset (VNum (getOffset this))) ;;
     limit <- read queryConfig "limit" ;;
     write queryConfig "limit"
       (if isOne then VNull else coalesce limit (VNum (perPage this)))
   else ret tt) ;;
  order <- read queryConfig "order" ;;
  order' <- (if isOne then ret VNull
             else if nullish order
                  then terms <- lift (getOrderBy this VUndef) ;; ret (VArr terms)
                  else ret order) ;;
  write queryConfig "order" order' ;;
  include <- read queryConfig "include" ;;
  includes <- lift (getInclude this) ;;
  write queryConfig "include" (merge (coalesce include (VArr [])) (VArr includes)) ;;
  attrs <- read queryConfig "attributes" ;;
  (let merged := merge (coalesce attrs (VArr [])) (VArr (attributes this)) in
   (* the destination of the merge is updated in place *)
   (if isObject attrs then write queryConfig "attributes" merged else ret tt) ;;
   (if length_gt0 merged then write queryConfig "attributes" merged else ret tt)) ;;
  (if truthy (filter this) then
     where_ <- read queryConfig "where" ;;
     write queryConfig "where"
       (merge (coalesce where_ (VObj [])) (VObj [("$and", filter this)]))
   else ret tt) ;;
  (if truthy (additionalFilter this) then
     where_ <- read queryConfig "where" ;;
     write queryConfig "where"
       (merge (coalesce where_ (VObj [])) (VObj [("$and", additionalFilter this)]))
   else ret tt) ;;
  ret queryConfig.

(** [toJSON] *)
Definition toJSON : M loc := getQuery None false.

End Translator.

(** ** Reading a [where] tree

    How the execution engine reads the fragment of predicate trees used
    below: an object is the conjunction of its entries; the entry [$and]
    holds a predicate or an array of predicates, [$or] an array of
    alternatives; any other key is a column, compared with a literal or
    looked up in an array of admitted literals. *)

Definition lit_eqb (a b : value) : bool :=
  match a, b with
  | VNull, VNull => true
  | VBool x, VBool y => Bool.eqb x y
  | VNum x, VNum y => (x =? y)%float
  | VStr x, VStr y => x =? y
  | _, _ => false
  end.

Definition column_matches (field : value) (cond : value) : bool :=
  match cond with
  | VArr admitted => existsb (lit_eqb field) admitted
  | _ => lit_eqb field cond
  end.

Fixpoint holds (record : obj) (p : value) {struct p} : bool :=
  match p with
  | VObj props =>
      (fix all_entries (props : list (string * value)) : bool :=
         match props with
         | [] => true
         | (key, cond) :: rest =>
             (if key =? "$and" then
                match cond with
                | VArr ps =>
                    (fix all_of (ps : list value) : bool :=
                       match ps with
                       | [] => true
                       | q :: qs => holds record q && all_of qs
                       end) ps
                | _ => holds record cond
                end
              else if key =? "$or" then
                match cond with
                | VArr ps =>
                    (fix any_of (ps : list value) : bool :=
                       match ps with
                       | [] => false
                       | q :: qs => holds record q || any_of qs
                       end) ps
                | _ => holds record cond
                end
              else column_matches (prop record key) cond)
             && all_entries rest
         end) props
  | _ => true
  end.

(** ** BaseConnection *)

Module BaseConnection.

(** An address answered by the resolver. *)
Record SrvAddress : Type := mkSrv {
  name : string;
  port : value;
  priority : Z;
  weight : Z
}.

(** An instance of the class: its fields [db], [models], [config]. *)
Record Connection : Type := mkConnection {
  db : value;
  models : obj;
  config : obj
}.

(** What a model initialiser returns: the model, and the callbacks it may
    carry. *)
Record Model : Type := mkModel {
  model_value : value;
  associate : option (obj -> outcome unit);
  insertDefault : option (obj -> outcome unit)
}.

Definition InitModel : Type := value -> value -> value -> Model.

(** What the outside world sees of a run. *)
Inductive event : Type :=
| SrvLookup (srv : string)
| DatabaseChecked
| ModelInitialised (name : string)
| AssociationRun (models : obj).

(** The static field [instance], and the events so far. *)
Record statics : Type := mkStatics {
  instance : option Connection;
  events : list event
}.

Definition St (A : Type) : Type := statics -> outcome (A * statics).

Definition emit (e : event) : St unit :=
  fun s => Ok (tt, mkStatics (instance s) (events s ++ [e])).

Definition sbind {A B} (m : St A) (k : A -> St B) : St B :=
  fun s => match m s with
           | Ok (a, s') => k a s'
           | Throw e => Throw e
           end.

Definition sret {A} (a : A) : St A := fun s => Ok (a, s).

Definition slift {A} (o : outcome A) : St A :=
  fun s => match o with
           | Ok a => Ok (a, s)
           | Throw e => Throw e
           end.

(** The result of [prepare]: [false], or the database and the default
    inserters. *)
Inductive prepared : Type :=
| PFalse
| PReady (db : value) (insertDefaults : list (obj -> outcome unit)).

(** [s.endsWith(suffix)] *)
Definition ends_with (s suffix : string) : bool :=
  let n := String.length s in
  let m := String.length suffix in
  (m <=? n)%nat && (substring (n - m) m s =? suffix).

(** [s.replace(/-/g, '_')] *)
Definition dashes_to_underscores (s : string) : string :=
  of_chars (List.map (fun c => if Ascii.eqb c "-" then "_"%char else c) (chars s)).

(** [delete o[k]] *)
Definition without (k : string) (o : obj) : obj :=
  List.filter (fun kv => negb (fst kv =? k)) o.

Definition address_leb (a b : SrvAddress) : bool :=
  (priority a <? priority b)%Z ||
  ((priority a =? priority b)%Z && (weight a <=? weight b)%Z).

Fixpoint insert_sorted (a : SrvAddress) (l : list SrvAddress) : list SrvAddress :=
  match l with
  | [] => [a]
  | b :: rest => if address_leb a b then a :: l else b :: insert_sorted a rest
  end.

(** [_.sortBy(addresses, ['priority', 'weight'])], a stable sort. *)
Definition sortBy (l : list SrvAddress) : list SrvAddress :=
  foldr insert_sorted [] l.

(** Optional string to value: a missing array element is [undefined]. *)
Definition opt_str (o : option string) : value :=
  match o with
  | Some s => VStr s
  | None => VUndef
  end.

(** One entry of a comma-separated replica list. *)
Definition replica (h : string) : value :=
  let parts := split h "@" in
  let replicaCredentials := nth 0 parts "" in
  let replicaHostAndPort := opt_str (parts !! 1%nat) in
  let hostPort :=
    split (match js_or replicaHostAndPort (VStr replicaCredentials) with
           | VStr x => x
           | _ => ""
           end) ":" in
  let replicaHost := nth 0 hostPort "" in
  let replicaPort := opt_str (hostPort !! 1%nat) in
  let userPass := split replicaCredentials ":" in
  let replicaUsername := nth 0 userPass "" in
  let replicaPassword := opt_str (userPass !! 1%nat) in
  VObj ([("host", VStr replicaHost)]
        ++ (if truthy replicaPort then [("port", replicaPort)] else [])
        ++ (if truthy (VStr replicaUsername)
            then [("username", VStr replicaUsername)] else [])
        ++ (if truthy replicaPassword then [("password", replicaPassword)] else [])).

(** [{ host: address.name, port: address.port }] *)
Definition host_and_port (address : SrvAddress) : value :=
  VObj [("host", VStr (name address)); ("port", port address)].

Section Resolver.

(** [dns.resolveSrv], the answer of the name service. *)
Variable resolveSrv : string -> outcome (list SrvAddress).

(** [_resolveSrv] *)
Definition _resolveSrv (srv : string) : St (list SrvAddress) :=
  if (String.length srv =? 0)%nat then sret []
  else sbind (emit (SrvLookup srv)) (fun _ =>
       sbind (slift (resolveSrv srv)) (fun addresses =>
       sret (sortBy addresses))).

(** [handleSRV] *)
Definition handleSRV (config : obj) : St obj :=
  let host := prop config "host" in
  let port := prop config "port" in
  let slaveHost := prop config "slaveHost" in
  let newConfig := without "slaveHost" (without "port" (without "host" config)) in
  sbind
    (if truthy slaveHost then
       match slaveHost with
       | VStr sh =>
           if negb (ends_with sh ".srv") then sret (List.map replica (split sh ","))
           else sbind (_resolveSrv sh) (fun slaves =>
                sret (List.map host_and_port slaves))
       | _ => slift (Throw TypeError)
       end
     else sret [])
    (fun read =>
       let replication (write : value) :=
         VObj [("read", VArr read); ("write", write)] in
       match host with
       | VStr h =>
           if negb (ends_with h ".srv") then
             if negb (truthy slaveHost) then sret config
             else sret (set_prop newConfig "replication"
                          (replication (VObj [("host", host); ("port", port)])))
           else
             sbind (_resolveSrv h) (fun masters =>
               match masters with
               | master :: _ =>
                   sret (set_prop newConfig "replication"
                           (replication (host_and_port master)))
               | [] => slift (Throw TypeError)
               end)
       | _ => slift (Throw TypeError)
       end).

(** [createDbConnection], [getDb], [getSequelize] *)
Definition createDbConnection (c : Connection) : Connection :=
  mkConnection (VObj []) (models c) (config c).

Definition getDb (c : Connection) : value := db c.

Definition getSequelize (c : Connection) : value := VObj [].

(** [getInstance] *)
Definition getInstance (config : obj) : St Connection :=
  fun s =>
    match instance s with
    | None =>
        let define := prop config "define" in
        let schema := if nullish define then VUndef
                      else prop (own_props define) "schema" in
        let! config' :=
          (if truthy schema then
             match schema with
             | VStr sch =>
                 Ok (set_prop config "define"
                       (VObj (set_prop (own_props define) "schema"
                                (VStr (dashes_to_underscores sch)))))
             | _ => Throw TypeError
             end
           else Ok config) in
        let c := createDbConnection (mkConnection VNull [] config') in
        Ok (c, mkStatics (Some c) (events s))
    | Some c => Ok (c, s)
    end.

(** [addModel] on the instance. *)
Definition addModel (name : string) (model : value) : St unit :=
  fun s =>
    match instance s with
    | Some c =>
        Ok (tt, mkStatics
                  (Some (mkConnection (db c) (set_prop (models c) name model) (config c)))
                  (events s))
    | None => Throw TypeError
    end.

(** [getModels] on the instance. *)
Definition getModels : St obj :=
  fun s =>
    match instance s with
    | Some c => Ok (models c, s)
    | None => Throw TypeError
    end.

(** [checkDatabaseExist] *)
Definition checkDatabaseExist : St bool :=
  sbind (emit DatabaseChecked) (fun _ => sret true).

(** The loop creating the models. *)
Fixpoint create_models (db sequelize modelConfig : value)
    (entries : list (string * InitModel)) : St (list Model) :=
  match entries with
  | [] => sret []
  | (name, initModel) :: rest =>
      let model := initModel db sequelize modelConfig in
      sbind (emit (ModelInitialised name)) (fun _ =>
      sbind (addModel name (model_value model)) (fun _ =>
      sbind (create_models db sequelize modelConfig rest) (fun ms =>
      sret (model :: ms))))
  end.

(** The loop creating the relations. *)
Fixpoint run_associations (associations : list (obj -> outcome unit)) : St unit :=
  match associations with
  | [] => sret tt
  | asoc :: rest =>
      sbind getModels (fun ms =>
      sbind (emit (AssociationRun ms)) (fun _ =>
      sbind (slift (asoc ms)) (fun _ =>
      run_associations rest)))
  end.

(** [prepare] *)
Definition prepare (models : list (string * InitModel)) (config : obj)
    (modelConfig : value) : St prepared :=
  fun s =>
    match instance s with
    | Some _ => Ok (PFalse, s)
    | None =>
        sbind (handleSRV config) (fun handledConfig =>
        sbind (getInstance handledConfig) (fun connection =>
        sbind checkDatabaseExist (fun _ =>
        sbind (create_models (getDb connection) (getSequelize connection)
                 modelConfig models) (fun created =>
        sbind (run_associations (omap associate created)) (fun _ =>
        sret (PReady (getDb connection) (omap insertDefault created))))))) s
    end.

End Resolver.

End BaseConnection.

(** ** The descriptor as a function of the base content

    What [getQuery] leaves in the object it was given, computed from what the
    object held before.  [getQuery_on_base] below relates the two. *)

Definition paginate (this : JsonQuery) (isOne : bool) (d : obj) : obj :=
  if negb (isAllPage this) then
    let d1 := set_prop d "offset"
                (if isOne then VNull
                 else coalesce (prop d "offset") (VNum (getOffset this))) in
    set_prop d1 "limit"
      (if isOne then VNull else coalesce (prop d1 "limit") (VNum (perPage this)))
  else d.

Definition resolve_order (this : JsonQuery) (isOne : bool) (d : obj) : outcome value :=
  if isOne then Ok VNull
  else if nullish (prop d "order")
       then let! terms := getOrderBy this VUndef in Ok (VArr terms)
       else Ok (prop d "order").

Definition merge_attributes (this : JsonQuery) (d : obj) : obj :=
  let attrs := prop d "attributes" in
  let merged := merge (coalesce attrs (VArr [])) (VArr (attributes this)) in
  let d1 := if isObject attrs then set_prop d "attributes" merged else d in
  if length_gt0 merged then set_prop d1 "attributes" merged else d1.

Definition and_where (f : value) (d : obj) : obj :=
  if truthy f
  then set_prop d "where" (merge (coalesce (prop d "where") (VObj [])) (VObj [("$and", f)]))
  else d.

Definition assemble (toQuery : value -> outcome value) (this : JsonQuery)
    (isOne : bool) (d : obj) : outcome obj :=
  let d1 := paginate this isOne d in
  let! order' := resolve_order this isOne d1 in
  let d2 := set_prop d1 "order" order' in
  let! includes := getInclude toQuery this in
  let d3 := set_prop d2 "include"
              (merge (coalesce (prop d2 "include") (VArr [])) (VArr includes)) in
  Ok (and_where (additionalFilter this)
        (and_where (filter this) (merge_attributes this d3))).

(** The world after the object at [l] has become [d]. *)
Definition upd (w : world) (l : loc) (d : obj) : world :=
  mkWorld (<[l := d]> (store w)) (self w).

(** [sim l m f]: on the object at [l], the computation [m] acts as the pure
    function [f] of the receiver and of the object's content, and touches
    nothing else. *)
Definition sim {A} (l : loc) (m : M A) (f : JsonQuery -> obj -> outcome (A * obj)) : Prop :=
  forall w d, store w !! l = Some d ->
    m w = match f (self w) d with
          | Ok (a, d') => Ok (a, upd w l d')
          | Throw e => Throw e
          end.

(** The content of the base descriptor handed to [getQuery]; an omitted
    argument stands for [{}]. *)
Definition base_content (w : world) (queryConfig : option loc) : option obj :=
  match queryConfig with
  | Some l => store w !! l
  | None => Some []
  end.

(** ** Reading an order term *)

Definition term_direction (term : value) : option string :=
  match term with
  | VArr [VStr _; VStr dir] => Some dir
  | VArr [VObj _; VStr _; VStr dir] => Some dir
  | _ => None
  end.

Definition term_column (term : value) : option string :=
  match term with
  | VArr [VStr column; VStr _] => Some column
  | VArr [VObj _; VStr column; VStr _] => Some column
  | _ => None
  end.

(** The relation handle and its alias, when the term carries them. *)
Definition term_relation (term : value) : option (value * value) :=
  match term with
  | VArr [VObj o; VStr _; VStr _] => Some (prop o "model", prop o "as")
  | _ => None
  end.

(** The segments of a sort token, sigils removed. *)
Definition segments (token : string) : list string :=
  split (trim token "$-") ".".

(** ** Fixtures *)

(** Modelled from the spec: the Filter Translator
    ([JsonQuerySequelize.toQuery], whose source is not at hand), a pure
    function from a filter expression to a predicate tree that maps the empty
    object to an always-true predicate.  This one leaves the expression as
    it is: an object of columns and literals is a predicate tree already. *)
Definition plain (v : value) : outcome value := Ok v.

Definition half_page_config : obj := [("page", VNum 0.5)].

Definition page3_config : obj := [("page", VNum 3); ("perPage", VNum 10)].

(** A registry that knows the relation [pictures]. *)
Definition pictures_registry : obj := [("pictures", VModel 7)].

Definition sample_tokens : list value :=
  [VStr "-age"; VStr "age"; VStr "$pictures.age$"; VStr "$ghost.age$";
   VNum 3; VStr ""].

Definition sample_query : JsonQuery :=
  mkJsonQuery (Some pictures_registry) 1 20 false sample_tokens
    [VStr "owner";
     VObj [("name", VStr "pictures"); ("limit", VNum 5); ("required", VBool true)];
     VObj [("name", VStr "ghost")]]
    [] (VObj []) (VObj []).

(** Configurations that are handed to the constructor without a model
    callback: a sort token, and an expand entry for an unknown relation. *)
Definition order_only_config : obj := [("orderBy", VArr [VStr "age"])].

Definition ghost_expand_config : obj :=
  [("expands", VArr [VObj [("name", VStr "ghost")]])].

(** A query over the same registry whose expand entry names a member that
    every object inherits. *)
Definition inherited_expand_query : JsonQuery :=
  mkJsonQuery (Some pictures_registry) 1 20 false []
    [VObj [("name", VStr "constructor")]] [] (VObj []) (VObj []).

(** A query over a registry without any model. *)
Definition empty_registry_query : JsonQuery :=
  mkJsonQuery (Some []) 1 20 false [] [] [] (VObj []) (VObj []).

(** A catalogue query, and a base descriptor that carries its own
    pagination. *)
Definition all_pages_query : JsonQuery :=
  mkJsonQuery (Some pictures_registry) 1 20 true [VStr "-age"] [] []
    (VObj []) (VObj []).

Definition paged_base : obj := [("offset", VNum 5); ("limit", VNum 7)].

Definition paged_query : JsonQuery :=
  mkJsonQuery (Some pictures_registry) 3 10 false [VStr "-age"] [] []
    (VObj []) (VObj []).

(** Filters on two columns. *)
Definition two_columns_config : obj :=
  [("filter", VObj [("a", VNum 1)]); ("additionalFilter", VObj [("b", VNum 2)])].

(** Filters on one and the same column. *)
Definition same_column_config : obj :=
  [("filter", VObj [("a", VNum 1)]); ("additionalFilter", VObj [("a", VNum 2)])].

Definition in_list_config : obj :=
  [("filter", VObj [("a", VArr [VNum 1; VNum 2])]);
   ("additionalFilter", VObj [("a", VArr [VNum 7])])].

(** A base descriptor with an include of its own, and a query that expands
    another relation. *)
Definition owner_base : obj := [("include", VArr [VStr "owner"])].

Definition owner_model_base : obj :=
  [("include", VArr [VObj [("model", VModel 1); ("as", VStr "owner");
                           ("where", VObj [("x", VNum 1)])]])].

Definition expand_pictures_config : obj := [("expands", VArr [VStr "pictures"])].

Definition expand_pictures_model_config : obj :=
  [("expands", VArr [VObj [("name", VStr "pictures")]])].

(** A connection that has been prepared, with one model. *)
Definition user_model : BaseConnection.InitModel :=
  fun _ _ _ => BaseConnection.mkModel (VModel 1) (Some (fun _ => Ok tt)) None.

Definition no_srv (srv : string) : outcome (list BaseConnection.SrvAddress) := Ok [].

Definition local_config : obj := [("host", VStr "localhost")].

Definition prepared_statics : BaseConnection.statics :=
  BaseConnection.mkStatics
    (Some (BaseConnection.mkConnection (VObj []) [("user", VModel 1)] local_config))
    [BaseConnection.DatabaseChecked;
     BaseConnection.ModelInitialised "user";
     BaseConnection.AssociationRun [("user", VModel 1)]].

(** A value that is neither an object nor [undefined]. *)
Definition is_scalar (v : value) : bool :=
  match v with
  | VNull | VBool _ | VNum _ | VStr _ => true
  | _ => false
  end.

(** The models that [prepare] creates from its entries, and the registry
    once each of them has been added to [acc] under its name. *)
Definition created (db sequelize modelConfig : value)
    (entries : list (string * BaseConnection.InitModel)) : list BaseConnection.Model :=
  List.map (fun e => snd e db sequelize modelConfig) entries.

Definition registered (db sequelize modelConfig : value)
    (entries : list (string * BaseConnection.InitModel)) (acc : obj) : obj :=
  fold_left
    (fun acc e =>
       set_prop acc (fst e) (BaseConnection.model_value (snd e db sequelize modelConfig)))
    entries acc.




(** * Properties *)

(** ** The store *)

Lemma upd_lookup w l d o : store w !! l = Some o -> store (upd w l d) !! l = Some d.
Proof.
  intros H. unfold upd; simpl. apply list_lookup_insert_eq.
  eapply lookup_lt_Some, H.
Qed.

Lemma upd_upd w l d d' : upd (upd w l d) l d' = upd w l d'.
Proof. unfold upd; simpl. by rewrite list_insert_insert_eq. Qed.

Lemma upd_same w l d : store w !! l = Some d -> upd w l d = w.
Proof.
  intros H. destruct w as [s t]; unfold upd; simpl in *.
  by rewrite list_insert_id.
Qed.


Lemma sim_ret {A} l (a : A) : sim l (ret a) (fun _ d => Ok (a, d)).
Proof. intros w d H. unfold ret. by rewrite (upd_same _ _ _ H). Qed.

Lemma sim_bind {A B} l (m : M A) (k : A -> M B) f g :
  sim l m f -> (forall a, sim l (k a) (g a)) ->
  sim l (bind m k)
      (fun t d => match f t d with
                  | Ok (a, d') => g a t d'
                  | Throw e => Throw e
                  end).
Proof.
  intros Hm Hk w d H. unfold bind. rewrite (Hm w d H).
  destruct (f (self w) d) as [[a d']|e]; [|done].
  rewrite (Hk a (upd w l d') d' (upd_lookup _ _ _ _ H)). simpl.
  destruct (g a (self w) d') as [[b d'']|e]; [|done].
  by rewrite upd_upd.
Qed.

Lemma sim_get_this l : sim l get_this (fun t d => Ok (t, d)).
Proof. intros w d H. unfold get_this. by rewrite (upd_same _ _ _ H). Qed.

Lemma sim_read l k : sim l (read l k) (fun _ d => Ok (prop d k, d)).
Proof. intros w d H. unfold read. rewrite H. by rewrite (upd_same _ _ _ H). Qed.

Lemma sim_write l k v : sim l (write l k v) (fun _ d => Ok (tt, set_prop d k v)).
Proof. intros w d H. unfold write. by rewrite H. Qed.

Lemma sim_lift {A} l (o : outcome A) :
  sim l (lift o) (fun _ d => match o with Ok a => Ok (a, d) | Throw e => Throw e end).
Proof.
  intros w d H. unfold lift. destruct o; [|done]. by rewrite (upd_same _ _ _ H).
Qed.

Lemma sim_if {A} l (c : bool) (m1 m2 : M A) f1 f2 :
  sim l m1 f1 -> sim l m2 f2 -> sim l (if c then m1 else m2) (if c then f1 else f2).
Proof. by destruct c. Qed.

Lemma sim_ext {A} l (m : M A) f g :
  sim l m f -> (forall t d, f t d = g t d) -> sim l m g.
Proof. intros H E w d Hd. rewrite <- E. by apply H. Qed.

Ltac sim_step :=
  lazymatch goal with
  | |- sim _ (bind (ret ?a) ?k) _ => change (bind (ret a) k) with (k a); cbv beta
  | |- sim _ (bind _ _) _ => eapply sim_bind; [|intros ?]
  | |- sim _ (ret _) _ => apply sim_ret
  | |- sim _ get_this _ => apply sim_get_this
  | |- sim _ (read _ _) _ => apply sim_read
  | |- sim _ (write _ _ _) _ => apply sim_write
  | |- sim _ (lift _) _ => apply sim_lift
  | |- sim _ (if _ then _ else _) _ => eapply sim_if
  end.

(** Case analysis on a scrutinee that holds no other case analysis. *)
Ltac split_atomic :=
  match goal with
  | |- context [if ?c then _ else _] =>
      lazymatch c with
      | context [if _ then _ else _] => fail
      | context [match _ with _ => _ end] => fail
      | _ => destruct c eqn:?
      end
  | |- context [match ?x with Ok _ => _ | Throw _ => _ end] =>
      lazymatch x with
      | context [if _ then _ else _] => fail
      | context [match _ with _ => _ end] => fail
      | _ => destruct x eqn:?
      end
  end.

(** [getQuery] on a given object: its content becomes [assemble] of its
    former content, and the same object is returned. *)
Lemma getQuery_sim toQuery l isOne :
  sim l (getQuery toQuery (Some l) isOne)
      (fun this d => let! d' := assemble toQuery this isOne d in Ok (l, d')).
Proof.
  eapply sim_ext.
  - unfold getQuery. cbv zeta. simpl. repeat sim_step.
  - intros this d. cbv beta. unfold assemble, paginate, resolve_order,
      merge_attributes, and_where. cbv zeta.
    destruct (isAllPage this), isOne; cbn [negb]; unfold obind; cbv beta iota;
      repeat (split_atomic; cbv beta iota); reflexivity.
Qed.

Lemma getQuery_on_base toQuery l isOne w d :
  store w !! l = Some d ->
  getQuery toQuery (Some l) isOne w =
    let! d' := assemble toQuery (self w) isOne d in Ok (l, upd w l d').
Proof.
  intros H. rewrite (getQuery_sim toQuery l isOne w d H).
  by destruct (assemble toQuery (self w) isOne d).
Qed.

(** An omitted base descriptor is a fresh empty object. *)
Lemma getQuery_fresh toQuery isOne w :
  getQuery toQuery None isOne w =
    getQuery toQuery (Some (length (store w))) isOne
             (mkWorld (store w ++ [[]]) (self w)).
Proof. reflexivity. Qed.

Lemma getQuery_no_base toQuery isOne w :
  getQuery toQuery None isOne w =
    let! d' := assemble toQuery (self w) isOne [] in
    Ok (length (store w), mkWorld (store w ++ [d']) (self w)).
Proof.
  rewrite getQuery_fresh.
  rewrite (getQuery_on_base _ _ _ _ []); simpl.
  - destruct (assemble toQuery (self w) isOne []); simpl; [|done].
    unfold upd; simpl. do 3 f_equal.
    rewrite insert_app_r_alt by lia. by rewrite Nat.sub_diag.
  - by rewrite list_lookup_middle.
Qed.

(** ** Small facts on values and objects *)

Lemma truthy_coalesce_null v : truthy (coalesce v VNull) = truthy v.
Proof. by destruct v. Qed.

Lemma coalesce_truthy v d : truthy v = true -> coalesce v d = v.
Proof. by destruct v. Qed.

Lemma assoc_set_prop_eq o k v : assoc k (set_prop o k v) = Some v.
Proof.
  induction o as [|[k' v'] o IH]; simpl.
  - by rewrite String.eqb_refl.
  - destruct (k' =? k) eqn:E; simpl; by rewrite E.
Qed.

Lemma assoc_set_prop_ne o k k' v : k <> k' -> assoc k (set_prop o k' v) = assoc k o.
Proof.
  intros Hne. induction o as [|[k0 v0] o IH]; simpl.
  - destruct (k' =? k) eqn:E; [|done]. apply String.eqb_eq in E. congruence.
  - destruct (k0 =? k') eqn:E; simpl.
    + apply String.eqb_eq in E; subst k0.
      destruct (k' =? k) eqn:E'; [|done]. apply String.eqb_eq in E'. congruence.
    + by rewrite IH.
Qed.

Lemma prop_set_prop_eq o k v : prop (set_prop o k v) k = v.
Proof. unfold prop. by rewrite assoc_set_prop_eq. Qed.

Lemma prop_set_prop_ne o k k' v : k <> k' -> prop (set_prop o k' v) k = prop o k.
Proof. intros H. unfold prop. by rewrite assoc_set_prop_ne. Qed.

(** ** The constructor *)

(** C7, as amended.  The constructor raises an error only when the filter
    translator does.  The page and the page size it keeps are numbers
    greater than 0: a supplied number greater than 0 is kept as it is,
    fraction or not; anything else (no number, [NaN], 0, a negative number)
    is replaced by 1 (page) or 20 (page size).  The offset is the product
    (page - 1) * perPage in double precision: 0 with limit 20 by default, 20
    for page 3 and page size 10. *)
Theorem pagination_normalised toQuery config getModels :
  match new_JsonQuery toQuery config getModels with
  | Ok q =>
      (0 <? page q)%float = true /\ (0 <? perPage q)%float = true
      /\ (forall n, prop config "page" = VNum n -> (0 <? n)%float = true -> page q = n)
      /\ ((forall n, prop config "page" = VNum n -> (0 <? n)%float = false) ->
          page q = 1%float)
      /\ (forall n, prop config "perPage" = VNum n -> (0 <? n)%float = true ->
          perPage q = n)
      /\ ((forall n, prop config "perPage" = VNum n -> (0 <? n)%float = false) ->
          perPage q = 20%float)
      /\ getOffset q = ((page q - 1) * perPage q)%float
      /\ (page q = 1%float -> perPage q = 20%float -> getOffset q = 0%float)
      /\ (page q = 3%float -> perPage q = 10%float -> getOffset q = 20%float)
  | Throw e =>
      toQuery (coalesce (prop config "filter") (VObj [])) = Throw e
      \/ toQuery (coalesce (prop config "additionalFilter") (VObj [])) = Throw e
  end.
Proof.
  unfold new_JsonQuery, _parseWhere.
  destruct (toQuery (coalesce (prop config "filter") (VObj []))) as [f|e]; simpl;
    [|by left].
  destruct (toQuery (coalesce (prop config "additionalFilter") (VObj []))) as [a|e];
    simpl; [|by right].
  assert (Hpos : forall (v : value) (dflt : float), (0 <? dflt)%float = true ->
            (0 <? match v with
                  | VNum q => if num_gt0 q then q else dflt
                  | _ => dflt
                  end)%float = true).
  { intros v dflt Hd. destruct v; try done.
    by destruct (num_gt0 q) eqn:E. }
  assert (Hkeep : forall (v : value) (dflt n : float),
            v = VNum n -> (0 <? n)%float = true ->
            match v with
            | VNum q => if num_gt0 q then q else dflt
            | _ => dflt
            end = n).
  { intros v dflt n -> Hn. unfold num_gt0. by rewrite Hn. }
  assert (Hdflt : forall (v : value) (dflt : float),
            (forall n, v = VNum n -> (0 <? n)%float = false) ->
            match v with
            | VNum q => if num_gt0 q then q else dflt
            | _ => dflt
            end = dflt).
  { intros v dflt Hn. destruct v; try done.
    unfold num_gt0. by rewrite (Hn q eq_refl). }
  split; [by apply Hpos|]. split; [by apply Hpos|].
  split; [intros n; apply Hkeep|]. split; [apply Hdflt|].
  split; [intros n; apply Hkeep|]. split; [apply Hdflt|].
  split; [reflexivity|]. unfold getOffset. simpl.
  split; intros -> ->; reflexivity.
Qed.

(** C7 as first stated fails: a page of one half is a number greater than
    0, is kept, and is below 1. *)
Lemma fractional_page_below_one :
  exists q, new_JsonQuery plain half_page_config None = Ok q
            /\ (1 <=? page q)%float = false.
Proof. eexists. split; reflexivity. Qed.

Lemma pagination_normalised_witness :
  exists q, new_JsonQuery plain page3_config None = Ok q
            /\ getOffset q = 20%float /\ perPage q = 10%float.
Proof.
  pose proof (pagination_normalised plain page3_config None) as H.
  simpl in H. destruct H as (_ & _ & _ & _ & Hkeep & _ & _ & _ & Hoff).
  eexists. split; [reflexivity|]. split.
  - apply Hoff; reflexivity.
  - apply (Hkeep 10%float); reflexivity.
Defined.

(** The offset is computed in double precision: beyond 2^53 the product is
    rounded, and an infinite page size, which is a number greater than 0,
    gives [NaN] on page 1. *)
Lemma offset_is_a_double :
  getOffset (mkJsonQuery None 9007199254740992 3 false [] [] [] (VObj []) (VObj []))
  = 27021597764222972%float
  /\ getOffset (mkJsonQuery None 1 infinity false [] [] [] (VObj []) (VObj [])) = nan.
Proof. split; reflexivity. Qed.

(** ** The Order Resolver *)

Lemma member_own reg k : truthy (prop reg k) = true -> member reg k = prop reg k.
Proof. unfold member, prop. by destruct (assoc k reg). Qed.

Lemma member_not_inherited reg k : inherited k = VUndef -> member reg k = prop reg k.
Proof. unfold member, prop. intros H. by destruct (assoc k reg). Qed.

Lemma order_term_spec reg t :
  exists term,
    order_term (Some reg) t = Ok term
    /\ term_direction term = Some (if starts_with_char "-" t then "DESC" else "ASC")
    /\ term_column term =
         Some (match segments t with
               | _ :: seg1 :: _ => seg1
               | seg0 :: _ => seg0
               | [] => ""
               end)
    /\ term_relation term =
         (if includes_char "$" t && truthy (member reg (nth 0 (segments t) ""))
          then Some (member reg (nth 0 (segments t) ""), VStr (nth 0 (segments t) ""))
          else None).
Proof.
  unfold order_term, segments. cbn [models_get obind].
  rewrite truthy_coalesce_null.
  destruct (includes_char "$" t); cbn [andb];
    [destruct (truthy (member reg (nth 0 (split (trim t "$-") ".") ""))) eqn:Ht|];
    try rewrite (coalesce_truthy _ _ Ht);
    destruct (starts_with_char "-" t);
    destruct (split (trim t "$-") ".") as [|s0 [|s1 rest]];
    eexists; (split; [reflexivity|]); repeat split.
Qed.

(** With a registry object at hand, [getOrderBy] does not throw on a
    sequence of tokens and yields one term for each token that is a non-empty
    string, in order.  The term is DESC when the token starts with a dash and
    ASC otherwise; its column is the second segment when there is one and the
    first otherwise; it carries a relation, aliased by the first segment,
    exactly when the token holds a dollar sign and the registry object has a
    truthy member of that name, its own or inherited. *)
Theorem getOrderBy_terms this reg field tokens :
  models this = Some reg ->
  field = VArr tokens \/ (truthy field = false /\ tokens = orderBy this) ->
  exists terms,
    getOrderBy this field = Ok terms
    /\ length terms = length (List.filter is_order_token tokens)
    /\ Forall2
         (fun token term => exists t,
            token = VStr t /\ t <> ""
            /\ term_direction term =
                 Some (if starts_with_char "-" t then "DESC" else "ASC")
            /\ term_column term =
                 Some (match segments t with
                       | _ :: seg1 :: _ => seg1
                       | seg0 :: _ => seg0
                       | [] => ""
                       end)
            /\ term_relation term =
                 (if includes_char "$" t && truthy (member reg (nth 0 (segments t) ""))
                  then Some (member reg (nth 0 (segments t) ""),
                             VStr (nth 0 (segments t) ""))
                  else None))
         (List.filter is_order_token tokens) terms
    /\ getOrderBy this (VArr [VStr "-age"; VStr "age"])
       = Ok [VArr [VStr "age"; VStr "DESC"]; VArr [VStr "age"; VStr "ASC"]]
    /\ (truthy (member reg "pictures") = true ->
        getOrderBy this (VArr [VStr "$pictures.age$"])
        = Ok [VArr [VObj [("model", member reg "pictures"); ("as", VStr "pictures")];
                    VStr "age"; VStr "ASC"]])
    /\ (truthy (member reg "ghost") = false ->
        getOrderBy this (VArr [VStr "$ghost.age$"])
        = Ok [VArr [VStr "age"; VStr "ASC"]]).
Proof.
  intros Hreg Hfield.
  assert (Hrun : getOrderBy this field
                 = mapM (order_term_of (Some reg)) (List.filter is_order_token tokens)).
  { unfold getOrderBy. rewrite Hreg.
    destruct Hfield as [->|[Hf ->]]; [done|]. by rewrite Hf. }
  assert (Hterms : exists terms,
            mapM (order_term_of (Some reg)) (List.filter is_order_token tokens) = Ok terms
            /\ Forall2
                 (fun token term => exists t,
                    token = VStr t /\ t <> ""
                    /\ term_direction term =
                         Some (if starts_with_char "-" t then "DESC" else "ASC")
                    /\ term_column term =
                         Some (match segments t with
                               | _ :: seg1 :: _ => seg1
                               | seg0 :: _ => seg0
                               | [] => ""
                               end)
                    /\ term_relation term =
                         (if includes_char "$" t
                             && truthy (member reg (nth 0 (segments t) ""))
                          then Some (member reg (nth 0 (segments t) ""),
                                     VStr (nth 0 (segments t) ""))
                          else None))
                 (List.filter is_order_token tokens) terms).
  { clear Hrun Hfield. induction tokens as [|token tokens IH]; simpl.
    - exists []. split; [done|constructor].
    - cbn [List.filter]. destruct (is_order_token token) eqn:Etok; [|apply IH].
      destruct token; try discriminate. cbn [is_order_token] in Etok.
      destruct IH as (terms & Hm & Hall).
      destruct (order_term_spec reg s) as (term & Ht & Hd & Hc & Hr).
      exists (term :: terms). cbn [mapM order_term_of].
      rewrite Ht. cbn [obind]. rewrite Hm. split; [done|].
      constructor; [|done]. exists s. repeat split; try done.
      intros ->. discriminate. }
  destruct Hterms as (terms & Hm & Hall).
  exists terms. rewrite Hrun. split; [done|]. split.
  { symmetry. eapply Forall2_length, Hall. }
  split; [done|].
  unfold getOrderBy. rewrite Hreg. cbn -[member]. split.
  { by destruct (member reg "age"). }
  split.
  - intros Hp. rewrite truthy_coalesce_null, Hp. cbn.
    by rewrite (coalesce_truthy _ _ Hp).
  - intros Hg. by rewrite truthy_coalesce_null, Hg.
Qed.

Lemma getOrderBy_terms_witness :
  exists terms,
    getOrderBy sample_query VUndef = Ok terms
    /\ terms = [VArr [VStr "age"; VStr "DESC"];
                VArr [VStr "age"; VStr "ASC"];
                VArr [VObj [("model", VModel 7); ("as", VStr "pictures")];
                      VStr "age"; VStr "ASC"];
                VArr [VStr "age"; VStr "ASC"]]
    /\ length terms = 4%nat.
Proof.
  destruct (getOrderBy_terms sample_query pictures_registry VUndef sample_tokens)
    as (terms & Hrun & Hlen & _); [reflexivity | right; split; reflexivity |].
  exists terms. split; [exact Hrun|]. split; [|exact Hlen].
  vm_compute in Hrun. congruence.
Defined.

(** C8.  The Order Resolver fails, and it qualifies terms by relations that
    are not registered.  Without a registry, which is what the constructor's
    default model callback gives, the map callback throws a TypeError on
    every token: a query built from [{orderBy: ["age"]}] alone throws from
    [getOrderBy] and from [getQuery].  With the registry that holds
    [pictures] only, the token ["$constructor.age$"] yields a term qualified
    by the inherited [Object] function under the alias [constructor], and
    with a registry that holds nothing ["-$toString.age$"] yields one
    qualified by the inherited [toString]; the token ["$ghost.age$"] falls
    back to the unqualified term. *)
Theorem order_resolver_defects :
  (forall t, order_term None t = Throw TypeError)
  /\ (exists q,
        new_JsonQuery plain order_only_config None = Ok q
        /\ models q = None
        /\ getOrderBy q VUndef = Throw TypeError
        /\ getQuery plain None false (mkWorld [] q) = Throw TypeError)
  /\ assoc "constructor" pictures_registry = None
  /\ getOrderBy sample_query (VArr [VStr "$constructor.age$"])
     = Ok [VArr [VObj [("model", VNative "constructor"); ("as", VStr "constructor")];
                 VStr "age"; VStr "ASC"]]
  /\ getOrderBy empty_registry_query (VArr [VStr "-$toString.age$"])
     = Ok [VArr [VObj [("model", VNative "toString"); ("as", VStr "toString")];
                 VStr "age"; VStr "DESC"]]
  /\ getOrderBy sample_query (VArr [VStr "$ghost.age$"])
     = Ok [VArr [VStr "age"; VStr "ASC"]].
Proof.
  split; [done|]. split.
  { eexists. split; [reflexivity|]. split; [reflexivity|].
    split; [reflexivity|]. by vm_compute. }
  split; [reflexivity|]. split; [by vm_compute|].
  split; by vm_compute.
Qed.

(** ** The Expand Resolver *)

Lemma mapM_Forall2 {A B} (f : A -> outcome B) l rs :
  mapM f l = Ok rs -> Forall2 (fun x r => f x = Ok r) l rs.
Proof.
  revert rs. induction l as [|x l IH]; intros rs; simpl.
  - intros [= <-]. constructor.
  - destruct (f x) as [y|] eqn:Ex; simpl; [|done].
    destruct (mapM f l) as [ys|]; simpl; [|done].
    intros [= <-]. constructor; [done|by apply IH].
Qed.

Lemma mapM_total {A B} (f : A -> outcome B) l :
  (forall x, x ∈ l -> exists r, f x = Ok r) -> exists rs, mapM f l = Ok rs.
Proof.
  induction l as [|x l IH]; intros H; simpl.
  - by eexists.
  - destruct (H x) as [y ->]; [left|]. simpl.
    destruct IH as [ys ->]; [intros z Hz; apply H; by right|].
    by eexists.
Qed.

Lemma produced_length {A} (l : list (option A)) : length (produced l) <= length l.
Proof. induction l as [|[x|] l IH]; simpl; lia. Qed.

(** With a registry object at hand: a plain string is passed on as it is; a
    structured entry of which neither the name nor the model name is a truthy
    member of the registry object, own or inherited, is dropped, without any
    error; a structured entry with a name that is such a member gives a
    descriptor with that model and alias, holding [limit] exactly when it is
    a number and [required] exactly when it is a boolean, and it does give
    one when it has neither an order nor a where clause.  The output of
    [getInclude] is, in order, what the entries produced, so it is no longer
    than the input; it exists as soon as no entry throws. *)
Theorem getInclude_entries toQuery this reg :
  models this = Some reg ->
  (forall s, include_entry toQuery this (VStr s) = Ok (Some (VStr s)))
  /\ (forall e,
        truthy (member reg (to_key (prop e "name"))) = false ->
        truthy (member reg (to_key (prop e "modelName"))) = false ->
        include_entry toQuery this (VObj e) = Ok None)
  /\ (forall e r,
        truthy (prop e "name") = true ->
        truthy (member reg (to_key (prop e "name"))) = true ->
        include_entry toQuery this (VObj e) = Ok r ->
        exists d,
          r = Some (VObj d)
          /\ prop d "model" = js_or (member reg (to_key (prop e "modelName")))
                                    (member reg (to_key (prop e "name")))
          /\ prop d "as" = prop e "name"
          /\ assoc "limit" d =
               (if typeof (prop e "limit") =? "number"
                then Some (prop e "limit") else None)
          /\ assoc "required" d =
               (if typeof (prop e "required") =? "boolean"
                then Some (prop e "required") else None))
  /\ (forall e,
        truthy (prop e "name") = true ->
        truthy (member reg (to_key (prop e "name"))) = true ->
        truthy (prop e "order") = false ->
        truthy (prop e "where") = false ->
        exists d, include_entry toQuery this (VObj e) = Ok (Some (VObj d)))
  /\ (forall out,
        getInclude toQuery this = Ok out ->
        exists rs,
          Forall2 (fun x r => include_entry toQuery this x = Ok r) (expands this) rs
          /\ out = produced rs
          /\ length out <= length (expands this))
  /\ ((forall x, x ∈ expands this -> exists r, include_entry toQuery this x = Ok r) ->
      exists out, getInclude toQuery this = Ok out).
Proof.
  intros Hreg. split; [|split; [|split; [|split; [|split]]]].
  - intros s. reflexivity.
  - intros e Hn Hm. unfold include_entry. cbn [typeof String.eqb Ascii.eqb Bool.eqb own_props].
    rewrite Hreg. cbn [models_get obind].
    destruct (truthy (prop e "name")); [|done].
    unfold js_or. by rewrite Hn, Hm.
  - intros e r Hname Hres. unfold include_entry.
    cbn [typeof String.eqb Ascii.eqb Bool.eqb own_props].
    rewrite Hreg, Hname. cbn [models_get obind].
    assert (Hor : truthy (js_or (member reg (to_key (prop e "name")))
                                (member reg (to_key (prop e "modelName")))) = true).
    { unfold js_or. by rewrite Hres. }
    rewrite Hor.
    destruct (truthy (prop e "order"));
      [destruct (getOrderBy this (prop e "order")); cbn [obind]; [|done]|];
      cbn [obind];
      (destruct (truthy (prop e "where"));
       [unfold _parseWhere; destruct (toQuery (prop e "where")); cbn [obind]; [|done]|]);
      cbn [obind]; intros [= <-]; eexists; (split; [reflexivity|]);
      destruct (typeof (prop e "required") =? "boolean");
      destruct (typeof (prop e "limit") =? "number");
      destruct (typeof (prop e "separate") =? "boolean");
      destruct (truthy (prop e "attributes")); repeat split.
  - intros e Hname Hres Ho Hw. unfold include_entry.
    cbn [typeof String.eqb Ascii.eqb Bool.eqb own_props].
    rewrite Hreg, Hname, Ho, Hw. cbn [models_get obind].
    unfold js_or at 1. rewrite Hres, Hres. by eexists.
  - intros out. unfold getInclude.
    destruct (mapM (include_entry toQuery this) (expands this)) as [rs|] eqn:E;
      cbn [obind]; [|done].
    intros [= <-]. exists rs. split; [by apply mapM_Forall2|]. split; [done|].
    apply mapM_Forall2, Forall2_length in E. rewrite E. apply produced_length.
  - intros H. unfold getInclude.
    destruct (mapM_total _ _ H) as [rs ->]. by eexists.
Qed.

Lemma getInclude_entries_witness :
  getInclude plain sample_query
  = Ok [VStr "owner";
        VObj [("model", VModel 7); ("as", VStr "pictures");
              ("required", VBool true); ("limit", VNum 5)]]
  /\ include_entry plain sample_query (VObj [("name", VStr "ghost")]) = Ok None
  /\ exists d,
       include_entry plain sample_query
         (VObj [("name", VStr "pictures"); ("limit", VNum 5); ("required", VBool true)])
       = Ok (Some (VObj d))
       /\ assoc "limit" d = Some (VNum 5) /\ assoc "required" d = Some (VBool true).
Proof.
  destruct (getInclude_entries plain sample_query pictures_registry eq_refl)
    as (_ & Hdrop & Hkeep & _ & _ & _).
  split; [reflexivity|]. split.
  - apply Hdrop; reflexivity.
  - destruct (Hkeep [("name", VStr "pictures"); ("limit", VNum 5); ("required", VBool true)]
                    (Some (VObj [("model", VModel 7); ("as", VStr "pictures");
                                 ("required", VBool true); ("limit", VNum 5)])))
      as (d & Hd & _ & _ & Hl & Hr); [reflexivity..|].
    exists d. split; [by rewrite <- Hd|]. split; [exact Hl|exact Hr].
Defined.

(** C9.  The Expand Resolver raises an error on an unknown relation, and it
    keeps entries whose name is not registered.  Without a registry, which
    is what the constructor's default model callback gives, the entry
    [{name: "ghost"}] throws a TypeError instead of being dropped: a query
    built from [{expands: [{name: "ghost"}]}] alone throws from
    [getInclude] and from [getQuery].  With the registry that holds
    [pictures] only, the entry [{name: "constructor"}] is not dropped: it
    gives a descriptor whose model is the inherited [Object] function; the
    entry [{name: "ghost"}] is dropped. *)
Theorem expand_resolver_defects :
  (exists q,
     new_JsonQuery plain ghost_expand_config None = Ok q
     /\ models q = None
     /\ include_entry plain q (VObj [("name", VStr "ghost")]) = Throw TypeError
     /\ getInclude plain q = Throw TypeError
     /\ getQuery plain None false (mkWorld [] q) = Throw TypeError)
  /\ assoc "constructor" pictures_registry = None
  /\ include_entry plain inherited_expand_query (VObj [("name", VStr "constructor")])
     = Ok (Some (VObj [("model", VNative "constructor"); ("as", VStr "constructor")]))
  /\ getInclude plain inherited_expand_query
     = Ok [VObj [("model", VNative "constructor"); ("as", VStr "constructor")]]
  /\ include_entry plain inherited_expand_query (VObj [("name", VStr "ghost")])
     = Ok None.
Proof.
  split.
  { eexists. split; [reflexivity|]. split; [reflexivity|].
    split; [reflexivity|]. split; [reflexivity|]. by vm_compute. }
  split; [reflexivity|]. split; [by vm_compute|].
  split; by vm_compute.
Qed.

(** ** The Descriptor Assembler *)

Lemma and_where_other f d k : k <> "where" -> assoc k (and_where f d) = assoc k d.
Proof.
  intros H. unfold and_where. destruct (truthy f); [|done].
  by apply assoc_set_prop_ne.
Qed.

Lemma merge_attributes_other this d k :
  k <> "attributes" -> assoc k (merge_attributes this d) = assoc k d.
Proof.
  intros H. unfold merge_attributes. cbv zeta.
  destruct (length_gt0 _), (isObject _);
    repeat rewrite assoc_set_prop_ne by done; done.
Qed.

Lemma assemble_inv toQuery this isOne d d' :
  assemble toQuery this isOne d = Ok d' ->
  exists order' includes,
    resolve_order this isOne (paginate this isOne d) = Ok order'
    /\ getInclude toQuery this = Ok includes
    /\ assoc "order" d' = Some order'
    /\ (forall k, k <> "order" -> k <> "include" -> k <> "attributes" -> k <> "where" ->
        assoc k d' = assoc k (paginate this isOne d)).
Proof.
  unfold assemble. cbv zeta.
  destruct (resolve_order this isOne (paginate this isOne d)) as [o|]; cbn [obind]; [|done].
  destruct (getInclude toQuery this) as [incs|]; cbn [obind]; [|done].
  intros [= <-]. exists o, incs. split; [done|]. split; [done|]. split.
  - rewrite and_where_other, and_where_other, merge_attributes_other by done.
    rewrite assoc_set_prop_ne by done. apply assoc_set_prop_eq.
  - intros k H1 H2 H3 H4.
    rewrite and_where_other, and_where_other, merge_attributes_other by done.
    by rewrite !assoc_set_prop_ne by done.
Qed.

Lemma assemble_total toQuery this isOne d order' includes :
  resolve_order this isOne (paginate this isOne d) = Ok order' ->
  getInclude toQuery this = Ok includes ->
  exists d', assemble toQuery this isOne d = Ok d'.
Proof.
  intros Ho Hi. unfold assemble. cbv zeta. rewrite Ho, Hi. by eexists.
Qed.

Lemma assemble_throw toQuery this isOne d e :
  assemble toQuery this isOne d = Throw e ->
  resolve_order this isOne (paginate this isOne d) = Throw e
  \/ getInclude toQuery this = Throw e.
Proof.
  unfold assemble. cbv zeta.
  destruct (resolve_order this isOne (paginate this isOne d)) as [o|]; cbn [obind];
    [|intros [= <-]; by left].
  destruct (getInclude toQuery this) as [incs|]; cbn [obind]; [done|].
  intros [= <-]. by right.
Qed.

(** [getQuery] in terms of the content of its base descriptor. *)
Lemma getQuery_run toQuery qc isOne w d :
  base_content w qc = Some d ->
  getQuery toQuery qc isOne w =
    let! d' := assemble toQuery (self w) isOne d in
    Ok (match qc with Some l => l | None => length (store w) end,
        match qc with
        | Some l => upd w l d'
        | None => mkWorld (store w ++ [d']) (self w)
        end).
Proof.
  destruct qc as [l|]; simpl.
  - apply getQuery_on_base.
  - intros [= <-]. apply getQuery_no_base.
Qed.

(** A call that returns was given an object. *)
Lemma getQuery_base_exists toQuery qc isOne w l w' :
  getQuery toQuery qc isOne w = Ok (l, w') -> exists d, base_content w qc = Some d.
Proof.
  destruct qc as [b|]; simpl; [|by eexists].
  intros H. destruct (store w !! b) as [d|] eqn:E; [by eexists|].
  exfalso. revert H. unfold getQuery, bind, get_this, ret, read.
  destruct (isAllPage (self w)); simpl; by rewrite E.
Qed.

(** The object returned holds the assembled descriptor. *)
Lemma getQuery_result toQuery qc isOne w l w' :
  getQuery toQuery qc isOne w = Ok (l, w') ->
  exists d d',
    base_content w qc = Some d
    /\ assemble toQuery (self w) isOne d = Ok d'
    /\ store w' !! l = Some d'
    /\ self w' = self w
    /\ l = match qc with Some b => b | None => length (store w) end.
Proof.
  intros H. destruct (getQuery_base_exists _ _ _ _ _ _ H) as [d Hd].
  rewrite (getQuery_run _ _ _ _ _ Hd) in H.
  destruct (assemble toQuery (self w) isOne d) as [d'|] eqn:E; cbn [obind] in H; [|done].
  injection H as <- <-. exists d, d'. repeat split; try done.
  destruct qc as [b|]; simpl in *.
  - eapply upd_lookup, Hd.
  - by rewrite list_lookup_middle.
  - by destruct qc.
Qed.

(** C2, as amended.  In singleton-fetch mode the call returns as soon as the
    expands resolve, whatever the order tokens and the pagination are; the
    descriptor then has [order] set to [null]; when [allPage] is off, [offset]
    and [limit] are set to [null] as well; when [allPage] is on, [offset] and
    [limit] are left as the base descriptor had them. *)
Theorem singleton_fetch toQuery qc w d includes :
  base_content w qc = Some d ->
  getInclude toQuery (self w) = Ok includes ->
  exists l w' d',
    getQuery toQuery qc true w = Ok (l, w')
    /\ store w' !! l = Some d'
    /\ assoc "order" d' = Some VNull
    /\ (isAllPage (self w) = false ->
        assoc "offset" d' = Some VNull /\ assoc "limit" d' = Some VNull)
    /\ (isAllPage (self w) = true ->
        assoc "offset" d' = assoc "offset" d /\ assoc "limit" d' = assoc "limit" d).
Proof.
  intros Hd Hi.
  destruct (assemble_total toQuery (self w) true d VNull includes eq_refl Hi) as [d' Ha].
  pose proof (getQuery_run toQuery qc true w d Hd) as Hrun.
  rewrite Ha in Hrun. cbn [obind] in Hrun.
  destruct (getQuery_result _ _ _ _ _ _ Hrun) as (d0 & d1 & Hd0 & Ha1 & Hl & _ & _).
  assert (d1 = d') as -> by congruence.
  destruct (assemble_inv _ _ _ _ _ Ha) as (o & incs & Ho & _ & Hord & Hfr).
  injection Ho as <-.
  do 3 eexists. split; [exact Hrun|]. split; [exact Hl|]. split; [exact Hord|].
  split; intros Hall.
  - rewrite !Hfr by done. unfold paginate. rewrite Hall. cbn [negb].
    rewrite assoc_set_prop_ne by done. by rewrite !assoc_set_prop_eq.
  - rewrite !Hfr by done. unfold paginate. by rewrite Hall.
Qed.

(** C2 as first stated fails: with [allPage] on, the pagination of the base
    descriptor survives a singleton fetch. *)
Lemma singleton_fetch_keeps_base_pagination :
  exists w' d',
    getQuery plain (Some 0%nat) true (mkWorld [paged_base] all_pages_query) = Ok (0%nat, w')
    /\ store w' !! 0%nat = Some d'
    /\ assoc "offset" d' = Some (VNum 5)
    /\ assoc "limit" d' = Some (VNum 7).
Proof. do 2 eexists. repeat split; reflexivity. Qed.

Lemma singleton_fetch_witness :
  exists l w' d',
    getQuery plain None true (mkWorld [] paged_query) = Ok (l, w')
    /\ store w' !! l = Some d'
    /\ assoc "order" d' = Some VNull
    /\ assoc "offset" d' = Some VNull
    /\ assoc "limit" d' = Some VNull.
Proof.
  destruct (singleton_fetch plain None (mkWorld [] paged_query) [] [] eq_refl eq_refl)
    as (l & w' & d' & Hrun & Hl & Ho & Hpag & _).
  destruct (Hpag eq_refl) as [Hoff Hlim].
  exists l, w', d'. repeat split; assumption.
Defined.

(** C6.  With [allPage] on, no base descriptor and no singleton fetch, the
    descriptor has neither an [offset] nor a [limit] property, whatever the
    page and the page size; the call fails only where the order tokens or the
    expands cannot be resolved. *)
Theorem all_pages_no_pagination toQuery w :
  isAllPage (self w) = true ->
  match getQuery toQuery None false w with
  | Ok (l, w') =>
      exists d, store w' !! l = Some d
                /\ assoc "offset" d = None /\ assoc "limit" d = None
  | Throw e =>
      getOrderBy (self w) VUndef = Throw e \/ getInclude toQuery (self w) = Throw e
  end.
Proof.
  intros Hall.
  destruct (getQuery toQuery None false w) as [[l w']|e] eqn:Hrun.
  - destruct (getQuery_result _ _ _ _ _ _ Hrun) as (d & d' & Hd & Ha & Hl & _ & _).
    simpl in Hd. injection Hd as <-.
    destruct (assemble_inv _ _ _ _ _ Ha) as (o & incs & _ & _ & _ & Hfr).
    exists d'. split; [done|].
    rewrite !Hfr by done. unfold paginate. by rewrite Hall.
  - rewrite (getQuery_run _ None _ _ [] eq_refl) in Hrun.
    destruct (assemble toQuery (self w) false []) as [d'|e'] eqn:Ha;
      cbn [obind] in Hrun; [done|].
    injection Hrun as ->.
    destruct (assemble_throw _ _ _ _ _ Ha) as [Ho|Hi]; [left|by right].
    revert Ho. unfold resolve_order, paginate. rewrite Hall.
    cbn [negb nullish prop assoc].
    destruct (getOrderBy (self w) VUndef); cbn [obind]; congruence.
Qed.

Lemma all_pages_no_pagination_witness :
  exists l w' d,
    getQuery plain None false (mkWorld [] all_pages_query) = Ok (l, w')
    /\ store w' !! l = Some d
    /\ assoc "offset" d = None /\ assoc "limit" d = None.
Proof.
  pose proof (all_pages_no_pagination plain (mkWorld [] all_pages_query) eq_refl) as H.
  destruct (getQuery plain None false (mkWorld [] all_pages_query)) as [[l w']|e] eqn:E.
  - destruct H as (d & Hd & Ho & Hl). exists l, w', d. repeat split; assumption.
  - vm_compute in E. discriminate E.
Defined.




(** C5.  After a call that returned, a second call with the same flag and
    with a base descriptor of the same content as the first one had (or
    again with none) returns as well, and the two descriptors are equal; the
    receiver is still what it was.  When both calls are given one and the same
    object, both return that object. *)
Theorem getQuery_repeatable toQuery qc1 qc2 isOne w l1 w1 :
  getQuery toQuery qc1 isOne w = Ok (l1, w1) ->
  (base_content w1 qc2 = base_content w qc1 ->
   exists l2 w2,
     getQuery toQuery qc2 isOne w1 = Ok (l2, w2)
     /\ store w2 !! l2 = store w1 !! l1
     /\ self w2 = self w)
  /\ (qc2 = qc1 -> qc1 <> None ->
      forall l2 w2, getQuery toQuery qc2 isOne w1 = Ok (l2, w2) -> l2 = l1).
Proof.
  intros Hrun.
  destruct (getQuery_result _ _ _ _ _ _ Hrun) as (d & d' & Hd & Ha & Hl & Hs & Hloc).
  split.
  - intros Hsame. rewrite Hd in Hsame.
    rewrite (getQuery_run _ _ _ _ _ Hsame), Hs, Ha. cbn [obind].
    do 2 eexists. split; [reflexivity|]. split; [|by destruct qc2].
    rewrite Hl. destruct qc2 as [b|]; simpl in *.
    + eapply upd_lookup, Hsame.
    + by rewrite list_lookup_middle.
  - intros -> Hne l2 w2 Hrun2.
    destruct (getQuery_result _ _ _ _ _ _ Hrun2) as (_ & _ & _ & _ & _ & _ & Hloc2).
    destruct qc1; [congruence|done].
Qed.

Lemma getQuery_repeatable_witness :
  exists l1 w1 l2 w2,
    getQuery plain None false (mkWorld [] sample_query) = Ok (l1, w1)
    /\ getQuery plain None false w1 = Ok (l2, w2)
    /\ store w2 !! l2 = store w1 !! l1.
Proof.
  destruct (getQuery plain None false (mkWorld [] sample_query)) as [[l1 w1]|e] eqn:E.
  - destruct (getQuery_repeatable plain None None false _ _ _ E) as [Hsame _].
    destruct (Hsame eq_refl) as (l2 & w2 & Hrun & Heq & _).
    exists l1, w1, l2, w2. repeat split; assumption.
  - vm_compute in E. discriminate E.
Defined.

(** On two different columns the merge does hold both operands: of the
    records below only the one that matches both satisfies the [where]. *)
Lemma where_on_two_columns :
  exists q l w' d,
    new_JsonQuery plain two_columns_config (Some []) = Ok q
    /\ getQuery plain None false (mkWorld [] q) = Ok (l, w')
    /\ store w' !! l = Some d
    /\ prop d "where" = VObj [("$and", VObj [("a", VNum 1); ("b", VNum 2)])]
    /\ holds [("a", VNum 1); ("b", VNum 2)] (prop d "where") = true
    /\ holds [("a", VNum 1); ("b", VNum 3)] (prop d "where") = false
    /\ holds [("a", VNum 0); ("b", VNum 2)] (prop d "where") = false.
Proof. do 4 eexists. repeat split; reflexivity. Qed.

(** C1, on the code.  With a filter and an additional filter on one column,
    the [where] of the descriptor holds the additional filter alone: a record
    that fails the filter satisfies it.  With lists of admitted values on one
    column, the list of the additional filter is overwritten index by index
    and keeps the tail of the list of the filter: a record that fails the
    additional filter satisfies the [where]. *)
Theorem where_is_a_keyed_merge :
  (exists q l w' d,
     new_JsonQuery plain same_column_config (Some []) = Ok q
     /\ getQuery plain None false (mkWorld [] q) = Ok (l, w')
     /\ store w' !! l = Some d
     /\ prop d "where" = VObj [("$and", VObj [("a", VNum 2)])]
     /\ holds [("a", VNum 2)] (prop d "where") = true
     /\ holds [("a", VNum 2)] (filter q) = false)
  /\ (exists q l w' d,
        new_JsonQuery plain in_list_config (Some []) = Ok q
        /\ getQuery plain None false (mkWorld [] q) = Ok (l, w')
        /\ store w' !! l = Some d
        /\ prop d "where" = VObj [("$and", VObj [("a", VArr [VNum 7; VNum 2])])]
        /\ holds [("a", VNum 2)] (prop d "where") = true
        /\ holds [("a", VNum 2)] (additionalFilter q) = false).
Proof.
  split; do 4 eexists; repeat split; reflexivity.
Qed.

(** C3, on the code.  The include of the descriptor is merged index by
    index: the expand entry at index 0 takes the place of the base entry at
    index 0, and an expand descriptor is merged into a base descriptor at the
    same index, which keeps the [where] of the base entry under the model of
    the expand entry. *)
Theorem include_is_an_indexed_merge :
  (exists q w' d,
     new_JsonQuery plain expand_pictures_config (Some pictures_registry) = Ok q
     /\ getQuery plain (Some 0%nat) false (mkWorld [owner_base] q) = Ok (0%nat, w')
     /\ store w' !! 0%nat = Some d
     /\ prop d "include" = VArr [VStr "pictures"])
  /\ (exists q w' d,
        new_JsonQuery plain expand_pictures_model_config (Some pictures_registry) = Ok q
        /\ getQuery plain (Some 0%nat) false (mkWorld [owner_model_base] q) = Ok (0%nat, w')
        /\ store w' !! 0%nat = Some d
        /\ prop d "include"
           = VArr [VObj [("model", VModel 7); ("as", VStr "pictures");
                         ("where", VObj [("x", VNum 1)])]]).
Proof.
  split; do 3 eexists; repeat split; reflexivity.
Qed.

(** ** BaseConnection *)

(** C10.  When an instance exists already, [prepare] returns [false] and
    leaves the instance and the trace of events as they were: no lookup, no
    model initialised, no association run. *)
Theorem prepare_again_is_noop resolveSrv models config modelConfig s c :
  BaseConnection.instance s = Some c ->
  BaseConnection.prepare resolveSrv models config modelConfig s
  = Ok (BaseConnection.PFalse, s).
Proof.
  intros H. unfold BaseConnection.prepare. by rewrite H.
Qed.

(** A first call does the work. *)
Lemma prepare_first_time :
  exists r,
    BaseConnection.prepare no_srv [("user", user_model)] local_config VUndef
      (BaseConnection.mkStatics None [])
    = Ok (r, prepared_statics)
    /\ r <> BaseConnection.PFalse.
Proof. eexists. split; [reflexivity|discriminate]. Qed.

Lemma prepare_again_is_noop_witness :
  BaseConnection.prepare no_srv [("user", user_model)] local_config VUndef prepared_statics
  = Ok (BaseConnection.PFalse, prepared_statics).
Proof.
  apply (prepare_again_is_noop no_srv [("user", user_model)] local_config VUndef
           prepared_statics
           (BaseConnection.mkConnection (VObj []) [("user", VModel 1)] local_config)).
  reflexivity.
Defined.

(** * Further properties of the code *)

(** ** Strings *)

Lemma existsb_rev {A} (f : A -> bool) l : existsb f (rev l) = existsb f l.
Proof.
  induction l as [|x l IH]; simpl; [done|].
  rewrite existsb_app, IH. simpl. rewrite orb_false_r. apply orb_comm.
Qed.

Lemma includes_of_chars c l : includes_char c (of_chars l) = existsb (Ascii.eqb c) l.
Proof.
  unfold includes_char, char_in, chars, of_chars.
  by rewrite list_ascii_of_string_of_list_ascii.
Qed.

Lemma split_go_nonempty sep acc l : split_go sep acc l <> [].
Proof.
  revert acc. induction l as [|c l IH]; intros acc; simpl; [done|].
  destruct (Ascii.eqb c sep); [done|apply IH].
Qed.

Lemma split_go_free sep acc l :
  existsb (Ascii.eqb sep) acc = false ->
  Forall (fun seg => includes_char sep seg = false) (split_go sep acc l).
Proof.
  revert acc. induction l as [|c l IH]; intros acc Hacc; simpl.
  - constructor; [|constructor]. by rewrite includes_of_chars, existsb_rev.
  - destruct (Ascii.eqb c sep) eqn:E.
    + constructor; [by rewrite includes_of_chars, existsb_rev|]. by apply IH.
    + apply IH. simpl. by rewrite Ascii.eqb_sym, E.
Qed.

Lemma split_free s sep :
  Forall (fun seg => includes_char sep seg = false) (split s sep).
Proof. by apply split_go_free. Qed.


(** ** More on the Order Resolver *)



(** The column of an order term never holds a dot: of a dotted path only
    one segment is kept. *)
Theorem order_column_has_no_dot reg t term :
  order_term (Some reg) t = Ok term ->
  exists column, term_column term = Some column /\ includes_char "." column = false.
Proof.
  intros Hterm.
  destruct (order_term_spec reg t) as (term0 & H0 & _ & Hc & _).
  assert (term0 = term) as -> by congruence.
  eexists. split; [exact Hc|].
  pose proof (split_free (trim t "$-") ".") as Hfree.
  unfold segments. destruct (split (trim t "$-") ".") as [|s0 [|s1 rest]].
  - reflexivity.
  - by inversion Hfree.
  - inversion Hfree as [|? ? _ Hrest]. by inversion Hrest.
Qed.

Lemma order_column_has_no_dot_witness :
  exists column,
    term_column (VArr [VStr "b"; VStr "ASC"]) = Some column
    /\ includes_char "." column = false.
Proof.
  apply (order_column_has_no_dot pictures_registry "a.b.c"). reflexivity.
Defined.

(** Without a registry ([models()] returns [null], as the default callback
    of the constructor does) [getOrderBy] throws a TypeError as soon as one
    token is a non-empty string, and returns the empty sequence otherwise. *)
Theorem getOrderBy_without_registry this field tokens :
  models this = None ->
  field = VArr tokens \/ (truthy field = false /\ tokens = orderBy this) ->
  getOrderBy this field
  = if existsb is_order_token tokens then Throw TypeError else Ok [].
Proof.
  intros Hreg Hfield. unfold getOrderBy. rewrite Hreg.
  assert (Htok : (if truthy field
                  then match field with VArr l => Ok l | _ => Throw TypeError end
                  else Ok (orderBy this)) = Ok tokens).
  { destruct Hfield as [->|[Hf ->]]; [done|by rewrite Hf]. }
  rewrite Htok. cbn [obind]. clear.
  induction tokens as [|token tokens IH]; [done|].
  cbn [List.filter existsb]. destruct (is_order_token token) eqn:E; cbn [orb].
  - destruct token; try discriminate. reflexivity.
  - apply IH.
Qed.

Lemma getOrderBy_without_registry_witness :
  getOrderBy (mkJsonQuery None 1 20 false [VStr "age"] [] [] (VObj []) (VObj [])) VUndef
  = Throw TypeError
  /\ getOrderBy (mkJsonQuery None 1 20 false [VStr ""; VNum 1] [] [] (VObj []) (VObj []))
       VUndef
     = Ok [].
Proof.
  split.
  - apply (getOrderBy_without_registry
             (mkJsonQuery None 1 20 false [VStr "age"] [] [] (VObj []) (VObj []))
             VUndef [VStr "age"]); [reflexivity|right; split; reflexivity].
  - apply (getOrderBy_without_registry
             (mkJsonQuery None 1 20 false [VStr ""; VNum 1] [] [] (VObj []) (VObj []))
             VUndef [VStr ""; VNum 1]); [reflexivity|right; split; reflexivity].
Defined.

(** ** More on the Expand Resolver *)

Lemma mapM_throws {A B} (f : A -> outcome B) pre x post e :
  (forall y, y ∈ pre -> exists r, f y = Ok r) ->
  f x = Throw e ->
  mapM f (pre ++ x :: post) = Throw e.
Proof.
  intros Hpre Hx. induction pre as [|y pre IH]; simpl.
  - by rewrite Hx.
  - destruct (Hpre y) as [r ->]; [left|]. simpl.
    rewrite IH; [done|]. intros z Hz. apply Hpre. by right.
Qed.

(** What [getInclude] does with the entries that are neither a name nor a
    resolvable object.  A number, a boolean, [undefined] or an array is
    dropped, and so is an object whose name is missing or empty, with or
    without a registry.  A [null] entry throws a TypeError, and so does the
    whole sequence when only names come before it.  An object with a name
    throws a TypeError when there is no registry, and also when its relation
    resolves and its [order] is something else than an array or a falsy
    value. *)
Theorem include_entry_shapes toQuery this :
  (forall q, include_entry toQuery this (VNum q) = Ok None)
  /\ (forall b, include_entry toQuery this (VBool b) = Ok None)
  /\ include_entry toQuery this VUndef = Ok None
  /\ (forall l, include_entry toQuery this (VArr l) = Ok None)
  /\ include_entry toQuery this VNull = Throw TypeError
  /\ (forall e, truthy (prop e "name") = false ->
      include_entry toQuery this (VObj e) = Ok None)
  /\ (forall e, models this = None -> truthy (prop e "name") = true ->
      include_entry toQuery this (VObj e) = Throw TypeError)
  /\ (forall e reg,
        models this = Some reg ->
        truthy (prop e "name") = true ->
        truthy (prop reg (to_key (prop e "name"))) = true ->
        truthy (prop e "order") = true ->
        isArray (prop e "order") = false ->
        include_entry toQuery this (VObj e) = Throw TypeError)
  /\ (forall names post,
        expands this = List.map VStr names ++ VNull :: post ->
        getInclude toQuery this = Throw TypeError).
Proof.
  split; [done|]. split; [done|]. split; [done|]. split; [done|].
  split; [done|]. split; [|split; [|split]].
  - intros e Hn. unfold include_entry.
    cbn [typeof String.eqb Ascii.eqb Bool.eqb own_props]. by rewrite Hn.
  - intros e Hreg Hn. unfold include_entry.
    cbn [typeof String.eqb Ascii.eqb Bool.eqb own_props]. by rewrite Hn, Hreg.
  - intros e reg Hreg Hn Hres Ho Harr. unfold include_entry.
    cbn [typeof String.eqb Ascii.eqb Bool.eqb own_props].
    rewrite Hn, Hreg. cbn [models_get obind].
    rewrite (member_own _ _ Hres).
    unfold js_or at 1. rewrite Hres, Hres, Ho.
    unfold getOrderBy. rewrite Ho. by destruct (prop e "order").
  - intros names post Hexp. unfold getInclude. rewrite Hexp.
    rewrite (mapM_throws _ _ _ _ TypeError); [done| |done].
    intros y Hy. apply list_elem_of_fmap in Hy as (s & -> & _).
    by eexists.
Qed.

Lemma include_entry_shapes_witness :
  include_entry plain sample_query
    (VObj [("name", VStr "pictures"); ("order", VStr "age")])
  = Throw TypeError
  /\ getInclude plain
       (mkJsonQuery None 1 20 false [] [VStr "owner"; VNull] [] (VObj []) (VObj []))
     = Throw TypeError.
Proof.
  destruct (include_entry_shapes plain sample_query)
    as (_ & _ & _ & _ & _ & _ & _ & Horder & _).
  destruct (include_entry_shapes plain
              (mkJsonQuery None 1 20 false [] [VStr "owner"; VNull] [] (VObj []) (VObj [])))
    as (_ & _ & _ & _ & _ & _ & _ & _ & Hseq).
  split.
  - apply (Horder _ pictures_registry); reflexivity.
  - apply (Hseq ["owner"] []). reflexivity.
Defined.

(** ** lodash merge on arrays of scalars *)

Lemma index_round_trip n : index_of_key (key_of_index n) = Some n.
Proof.
  unfold index_of_key, key_of_index.
  rewrite NilEmpty.usu, DecimalNat.Unsigned.of_to.
  by rewrite String.eqb_refl.
Qed.

Lemma merge_key_scalar rec l i v :
  is_scalar v = true ->
  merge_key rec (VArr l) (key_of_index i) v = VArr (arr_set l i v).
Proof.
  intros Hv. unfold merge_key.
  assert (isObject v = false) as -> by (by destruct v).
  unfold assignMergeValue, set_key. rewrite index_round_trip. by destruct v.
Qed.

Lemma each_scalars items :
  forall i l,
    forallb is_scalar items = true ->
    (i <= length l)%nat ->
    (fix each (items : list value) (i : nat) (object : value) : value :=
       match items with
       | [] => object
       | srcValue :: rest =>
           each rest (S i)
                (merge_key (baseMerge srcValue) object (key_of_index i) srcValue)
       end) items i (VArr l)
    = VArr (take i l ++ items ++ drop (i + length items) l).
Proof.
  induction items as [|v items IH]; intros i l Hs Hi.
  - simpl. rewrite Nat.add_0_r. by rewrite take_drop.
  - cbn [forallb] in Hs. apply andb_true_iff in Hs as [Hv Hs].
    rewrite merge_key_scalar by done.
    unfold arr_set. destruct (i <? length l)%nat eqn:Elt.
    + apply Nat.ltb_lt in Elt.
      rewrite IH; [|done|rewrite length_insert; lia].
      f_equal. rewrite take_insert_lt by lia.
      rewrite drop_insert_lt by (simpl; lia).
      destruct (lookup_lt_is_Some_2 l i Elt) as [x Hx].
      rewrite (take_S_r _ _ _ Hx).
      rewrite insert_app_r_alt by (rewrite length_take; lia).
      rewrite length_take, Nat.min_l by lia. rewrite Nat.sub_diag. simpl.
      rewrite <- app_assoc. simpl. by rewrite Nat.add_succ_r.
    + apply Nat.ltb_ge in Elt. assert (i = length l) as -> by lia.
      rewrite Nat.sub_diag. simpl.
      rewrite IH; [|done|rewrite length_app; simpl; lia].
      f_equal. rewrite firstn_all.
      rewrite take_ge by (rewrite length_app; simpl; lia).
      rewrite !drop_ge by (rewrite ?length_app; simpl; lia).
      by rewrite <- app_assoc.
Qed.

Lemma merge_scalars a b :
  forallb is_scalar a = true ->
  merge (VArr b) (VArr a) = VArr (a ++ drop (length a) b).
Proof.
  intros Hs. unfold merge. cbn [truthy to_object].
  exact (each_scalars a 0%nat b Hs (Nat.le_0_l _)).
Qed.

(** ** More on the Descriptor Assembler *)

Lemma paginate_other this isOne d k :
  k <> "offset" -> k <> "limit" -> assoc k (paginate this isOne d) = assoc k d.
Proof.
  intros H1 H2. unfold paginate. destruct (negb (isAllPage this)); [|done].
  by rewrite !assoc_set_prop_ne by done.
Qed.

Lemma set_prop_keeps o k k' v : is_Some (assoc k o) -> is_Some (assoc k (set_prop o k' v)).
Proof.
  intros H. destruct (String.eqb_spec k k') as [->|Hne].
  - rewrite assoc_set_prop_eq. by eexists.
  - by rewrite assoc_set_prop_ne.
Qed.

Lemma assemble_shape toQuery this isOne d d' :
  assemble toQuery this isOne d = Ok d' ->
  exists order' includes,
    resolve_order this isOne (paginate this isOne d) = Ok order'
    /\ getInclude toQuery this = Ok includes
    /\ d' = and_where (additionalFilter this)
              (and_where (filter this)
                 (merge_attributes this
                    (set_prop (set_prop (paginate this isOne d) "order" order')
                       "include"
                       (merge (coalesce (prop (set_prop (paginate this isOne d)
                                                 "order" order') "include")
                                        (VArr []))
                              (VArr includes))))).
Proof.
  unfold assemble. cbv zeta.
  destruct (resolve_order this isOne (paginate this isOne d)) as [o|]; cbn [obind]; [|done].
  destruct (getInclude toQuery this) as [incs|]; cbn [obind]; [|done].
  intros [= <-]. by exists o, incs.
Qed.

Lemma prop_paginate_other this isOne d k :
  k <> "offset" -> k <> "limit" -> prop (paginate this isOne d) k = prop d k.
Proof. intros H1 H2. unfold prop. by rewrite paginate_other. Qed.

(** A list query always carries its pagination: with [allPage] off and no
    singleton fetch, [offset] is the offset of the base descriptor unless
    that is missing or [null], in which case it is [getOffset()]; [limit] is
    the limit of the base descriptor or else the page size.  Neither is ever
    left [undefined] or [null]. *)
Theorem getQuery_pagination toQuery qc w d l w' :
  base_content w qc = Some d ->
  isAllPage (self w) = false ->
  getQuery toQuery qc false w = Ok (l, w') ->
  exists d',
    store w' !! l = Some d'
    /\ assoc "offset" d'
       = Some (coalesce (prop d "offset") (VNum (getOffset (self w))))
    /\ assoc "limit" d'
       = Some (coalesce (prop d "limit") (VNum (perPage (self w))))
    /\ nullish (prop d' "offset") = false
    /\ nullish (prop d' "limit") = false.
Proof.
  intros Hd Hall Hrun.
  destruct (getQuery_result _ _ _ _ _ _ Hrun) as (d0 & d' & Hd0 & Ha & Hl & _ & _).
  assert (d0 = d) as -> by congruence.
  destruct (assemble_inv _ _ _ _ _ Ha) as (_ & _ & _ & _ & _ & Hfr).
  assert (Hoff : assoc "offset" d'
                 = Some (coalesce (prop d "offset") (VNum (getOffset (self w))))).
  { rewrite Hfr by done. unfold paginate. rewrite Hall. cbn [negb].
    rewrite assoc_set_prop_ne by done. apply assoc_set_prop_eq. }
  assert (Hlim : assoc "limit" d'
                 = Some (coalesce (prop d "limit") (VNum (perPage (self w))))).
  { rewrite Hfr by done. unfold paginate. rewrite Hall. cbn [negb].
    rewrite assoc_set_prop_eq. by rewrite prop_set_prop_ne. }
  exists d'. split; [done|]. split; [done|]. split; [done|].
  unfold prop at 1 2. rewrite Hoff, Hlim.
  split; [by destruct (prop d "offset")|by destruct (prop d "limit")].
Qed.

Lemma getQuery_pagination_witness :
  exists w' d',
    getQuery plain (Some 0%nat) false (mkWorld [[("limit", VNum 5)]] paged_query)
    = Ok (0%nat, w')
    /\ store w' !! 0%nat = Some d'
    /\ assoc "offset" d' = Some (VNum 20)
    /\ assoc "limit" d' = Some (VNum 5).
Proof.
  destruct (getQuery_pagination plain (Some 0%nat)
              (mkWorld [[("limit", VNum 5)]] paged_query) [("limit", VNum 5)]
              0%nat _ eq_refl eq_refl eq_refl)
    as (d' & Hl & Ho & Hlim & _).
  eexists _, d'. split; [reflexivity|]. split; [exact Hl|]. split; [exact Ho|exact Hlim].
Defined.

(** An order given in the base descriptor wins over the order tokens of the
    query: the tokens are not even resolved, so that the call returns as soon
    as the expands resolve, registry or not.  Without one, the order is what
    [getOrderBy()] returns. *)
Theorem getQuery_order toQuery qc w d :
  base_content w qc = Some d ->
  (nullish (prop d "order") = false ->
   forall includes, getInclude toQuery (self w) = Ok includes ->
   exists l w' d',
     getQuery toQuery qc false w = Ok (l, w')
     /\ store w' !! l = Some d'
     /\ assoc "order" d' = Some (prop d "order"))
  /\ (nullish (prop d "order") = true ->
      forall l w', getQuery toQuery qc false w = Ok (l, w') ->
      exists terms d',
        getOrderBy (self w) VUndef = Ok terms
        /\ store w' !! l = Some d'
        /\ assoc "order" d' = Some (VArr terms)).
Proof.
  intros Hd. split.
  - intros Hord includes Hinc.
    assert (Hres : resolve_order (self w) false (paginate (self w) false d)
                   = Ok (prop d "order")).
    { unfold resolve_order. rewrite prop_paginate_other by done. by rewrite Hord. }
    destruct (assemble_total toQuery _ _ _ _ _ Hres Hinc) as [d' Ha].
    pose proof (getQuery_run toQuery qc false w d Hd) as Hrun.
    rewrite Ha in Hrun. cbn [obind] in Hrun.
    destruct (getQuery_result _ _ _ _ _ _ Hrun) as (d0 & d1 & Hd0 & Ha1 & Hl & _ & _).
    assert (d0 = d) as -> by congruence.
    destruct (assemble_inv _ _ _ _ _ Ha1) as (o & _ & Ho & _ & Hassoc & _).
    do 3 eexists. split; [exact Hrun|]. split; [exact Hl|]. congruence.
  - intros Hord l w' Hrun.
    destruct (getQuery_result _ _ _ _ _ _ Hrun) as (d0 & d' & Hd0 & Ha & Hl & _ & _).
    assert (d0 = d) as -> by congruence.
    destruct (assemble_inv _ _ _ _ _ Ha) as (o & _ & Ho & _ & Hassoc & _).
    revert Ho. unfold resolve_order. rewrite prop_paginate_other by done.
    rewrite Hord. destruct (getOrderBy (self w) VUndef) as [terms|]; cbn [obind]; [|done].
    intros [= <-]. by exists terms, d'.
Qed.

Lemma getQuery_order_witness :
  exists l w' d',
    getQuery plain (Some 0%nat) false
      (mkWorld [[("order", VArr [VArr [VStr "id"; VStr "ASC"]])]]
         (mkJsonQuery None 1 20 false [VStr "-age"] [] [] (VObj []) (VObj [])))
    = Ok (l, w')
    /\ store w' !! l = Some d'
    /\ assoc "order" d' = Some (VArr [VArr [VStr "id"; VStr "ASC"]]).
Proof.
  destruct (getQuery_order plain (Some 0%nat)
              (mkWorld [[("order", VArr [VArr [VStr "id"; VStr "ASC"]])]]
                 (mkJsonQuery None 1 20 false [VStr "-age"] [] [] (VObj []) (VObj [])))
              [("order", VArr [VArr [VStr "id"; VStr "ASC"]])] eq_refl)
    as [Hkeep _].
  exact (Hkeep eq_refl [] eq_refl).
Defined.

Lemma merge_attributes_keeps this d k :
  is_Some (assoc k d) -> is_Some (assoc k (merge_attributes this d)).
Proof.
  intros H. unfold merge_attributes. cbv zeta.
  destruct (length_gt0 _), (isObject _); repeat apply set_prop_keeps; done.
Qed.

Lemma and_where_keeps f d k :
  is_Some (assoc k d) -> is_Some (assoc k (and_where f d)).
Proof.
  intros H. unfold and_where. destruct (truthy f); [by apply set_prop_keeps|done].
Qed.

Lemma paginate_keeps this isOne d k :
  is_Some (assoc k d) -> is_Some (assoc k (paginate this isOne d)).
Proof.
  intros H. unfold paginate. destruct (negb (isAllPage this)); [|done].
  by repeat apply set_prop_keeps.
Qed.

(** [getQuery] only ever adds to its base descriptor: every property the
    base descriptor had is still there afterwards, and the properties other
    than [offset], [limit], [order], [include], [attributes] and [where] hold
    what they held. *)
Theorem getQuery_keeps_properties toQuery qc isOne w d l w' :
  base_content w qc = Some d ->
  getQuery toQuery qc isOne w = Ok (l, w') ->
  exists d',
    store w' !! l = Some d'
    /\ (forall k, is_Some (assoc k d) -> is_Some (assoc k d'))
    /\ (forall k,
          k <> "offset" -> k <> "limit" -> k <> "order" -> k <> "include" ->
          k <> "attributes" -> k <> "where" ->
          assoc k d' = assoc k d).
Proof.
  intros Hd Hrun.
  destruct (getQuery_result _ _ _ _ _ _ Hrun) as (d0 & d' & Hd0 & Ha & Hl & _ & _).
  assert (d0 = d) as -> by congruence.
  exists d'. split; [done|]. split.
  - intros k Hk. destruct (assemble_shape _ _ _ _ _ Ha) as (o & incs & _ & _ & ->).
    by repeat first [apply and_where_keeps | apply merge_attributes_keeps
                    | apply set_prop_keeps | apply paginate_keeps].
  - intros k H1 H2 H3 H4 H5 H6.
    destruct (assemble_inv _ _ _ _ _ Ha) as (_ & _ & _ & _ & _ & Hfr).
    rewrite Hfr by done. by apply paginate_other.
Qed.

Lemma getQuery_keeps_properties_witness :
  exists w' d',
    getQuery plain (Some 0%nat) true
      (mkWorld [[("raw", VBool true); ("limit", VNum 5)]] paged_query)
    = Ok (0%nat, w')
    /\ store w' !! 0%nat = Some d'
    /\ assoc "raw" d' = Some (VBool true)
    /\ is_Some (assoc "limit" d').
Proof.
  destruct (getQuery_keeps_properties plain (Some 0%nat) true
              (mkWorld [[("raw", VBool true); ("limit", VNum 5)]] paged_query)
              [("raw", VBool true); ("limit", VNum 5)] 0%nat _ eq_refl eq_refl)
    as (d' & Hl & Hkeep & Hsame).
  eexists _, d'. split; [reflexivity|]. split; [exact Hl|]. split.
  - rewrite Hsame; [reflexivity|discriminate..].
  - apply Hkeep. by eexists.
Defined.

Lemma assemble_attributes toQuery this isOne d d' :
  assemble toQuery this isOne d = Ok d' ->
  exists d3,
    prop d3 "attributes" = prop d "attributes"
    /\ assoc "attributes" d3 = assoc "attributes" d
    /\ assoc "attributes" d' = assoc "attributes" (merge_attributes this d3).
Proof.
  intros Ha. destruct (assemble_shape _ _ _ _ _ Ha) as (o & incs & _ & _ & ->).
  eexists. split; [|split]; [| |by rewrite !and_where_other by done].
  - rewrite !prop_set_prop_ne by done. by apply prop_paginate_other.
  - rewrite !assoc_set_prop_ne by done. by apply paginate_other.
Qed.

(** The attributes of the query are written over the attributes of the base
    descriptor position by position: with the column names [a] of the query
    and the array [b] in the base descriptor, the descriptor gets [a]
    followed by what [b] holds beyond the length of [a].  Without attributes
    in the base descriptor it gets [a], and when [a] is empty too the
    property is left as it was. *)
Theorem getQuery_attributes toQuery qc isOne w d l w' :
  base_content w qc = Some d ->
  forallb is_scalar (attributes (self w)) = true ->
  getQuery toQuery qc isOne w = Ok (l, w') ->
  exists d',
    store w' !! l = Some d'
    /\ (forall b, prop d "attributes" = VArr b ->
        assoc "attributes" d'
        = Some (VArr (attributes (self w) ++ drop (length (attributes (self w))) b)))
    /\ (nullish (prop d "attributes") = true ->
        assoc "attributes" d'
        = if (0 <? length (attributes (self w)))%nat
          then Some (VArr (attributes (self w)))
          else assoc "attributes" d).
Proof.
  intros Hd Hs Hrun.
  destruct (getQuery_result _ _ _ _ _ _ Hrun) as (d0 & d' & Hd0 & Ha & Hl & _ & _).
  assert (d0 = d) as -> by congruence.
  destruct (assemble_attributes _ _ _ _ _ Ha) as (d3 & Hp & Has & Hattr).
  exists d'. split; [done|]. rewrite Hattr.
  unfold merge_attributes. cbv zeta. rewrite Hp. split.
  - intros b ->. cbn [coalesce nullish isObject].
    rewrite (merge_scalars _ _ Hs).
    destruct (length_gt0 _); rewrite ?assoc_set_prop_eq; try done.
  - intros Hn.
    assert (isObject (prop d "attributes") = false) as ->
      by (by destruct (prop d "attributes")).
    unfold coalesce. rewrite Hn. rewrite (merge_scalars _ _ Hs).
    rewrite drop_nil, app_nil_r. cbn [length_gt0].
    destruct (0 <? length (attributes (self w)))%nat; [|done].
    apply assoc_set_prop_eq.
Qed.

Lemma getQuery_attributes_witness :
  exists w' d',
    getQuery plain (Some 0%nat) false
      (mkWorld [[("attributes", VArr [VStr "id"; VStr "name"; VStr "age"])]]
         (mkJsonQuery None 1 20 false [] [] [VStr "email"] (VObj []) (VObj [])))
    = Ok (0%nat, w')
    /\ store w' !! 0%nat = Some d'
    /\ assoc "attributes" d' = Some (VArr [VStr "email"; VStr "name"; VStr "age"]).
Proof.
  destruct (getQuery_attributes plain (Some 0%nat) false
              (mkWorld [[("attributes", VArr [VStr "id"; VStr "name"; VStr "age"])]]
                 (mkJsonQuery None 1 20 false [] [] [VStr "email"] (VObj []) (VObj [])))
              [("attributes", VArr [VStr "id"; VStr "name"; VStr "age"])]
              0%nat _ eq_refl eq_refl eq_refl)
    as (d' & Hl & Harr & _).
  eexists _, d'. split; [reflexivity|]. split; [exact Hl|].
  exact (Harr [VStr "id"; VStr "name"; VStr "age"] eq_refl).
Defined.

Lemma getInclude_names toQuery this names :
  expands this = List.map VStr names ->
  getInclude toQuery this = Ok (List.map VStr names).
Proof.
  intros Hexp. unfold getInclude. rewrite Hexp. clear.
  induction names as [|n names IH]; [done|].
  cbn [List.map mapM]. cbn [include_entry typeof String.eqb Ascii.eqb Bool.eqb obind].
  destruct (mapM (include_entry toQuery this) (List.map VStr names)) as [rs|];
    cbn [obind] in *; [|done].
  injection IH as IH. cbn [produced]. by rewrite IH.
Qed.

Lemma is_scalar_names names : forallb is_scalar (List.map VStr names) = true.
Proof. induction names; [done|]. simpl. done. Qed.

(** Plain relation names in [expands] are written over the include of the
    base descriptor position by position: the descriptor gets the names,
    followed by what the base include holds beyond their number. *)
Theorem getQuery_include_names toQuery qc isOne w d l w' names :
  base_content w qc = Some d ->
  expands (self w) = List.map VStr names ->
  getQuery toQuery qc isOne w = Ok (l, w') ->
  exists d',
    store w' !! l = Some d'
    /\ (forall b, prop d "include" = VArr b ->
        assoc "include" d' = Some (VArr (List.map VStr names ++ drop (length names) b)))
    /\ (nullish (prop d "include") = true ->
        assoc "include" d' = Some (VArr (List.map VStr names))).
Proof.
  intros Hd Hexp Hrun.
  destruct (getQuery_result _ _ _ _ _ _ Hrun) as (d0 & d' & Hd0 & Ha & Hl & _ & _).
  assert (d0 = d) as -> by congruence.
  destruct (assemble_shape _ _ _ _ _ Ha) as (o & incs & _ & Hinc & ->).
  rewrite (getInclude_names _ _ _ Hexp) in Hinc. injection Hinc as <-.
  eexists. split; [exact Hl|].
  rewrite !and_where_other, merge_attributes_other by done.
  rewrite assoc_set_prop_eq.
  rewrite prop_set_prop_ne, prop_paginate_other by done.
  split.
  - intros b ->. cbn [coalesce nullish].
    rewrite merge_scalars by apply is_scalar_names. by rewrite length_map.
  - intros Hn. unfold coalesce. rewrite Hn.
    rewrite merge_scalars by apply is_scalar_names.
    by rewrite drop_nil, app_nil_r.
Qed.

Lemma getQuery_include_names_witness :
  exists w' d',
    getQuery plain (Some 0%nat) false
      (mkWorld [[("include", VArr [VStr "owner"; VStr "tags"])]]
         (mkJsonQuery None 1 20 false [] [VStr "pictures"] [] (VObj []) (VObj [])))
    = Ok (0%nat, w')
    /\ store w' !! 0%nat = Some d'
    /\ assoc "include" d' = Some (VArr [VStr "pictures"; VStr "tags"]).
Proof.
  destruct (getQuery_include_names plain (Some 0%nat) false
              (mkWorld [[("include", VArr [VStr "owner"; VStr "tags"])]]
                 (mkJsonQuery None 1 20 false [] [VStr "pictures"] [] (VObj []) (VObj [])))
              [("include", VArr [VStr "owner"; VStr "tags"])]
              0%nat _ ["pictures"] eq_refl eq_refl eq_refl)
    as (d' & Hl & Harr & _).
  eexists _, d'. split; [reflexivity|]. split; [exact Hl|].
  exact (Harr [VStr "owner"; VStr "tags"] eq_refl).
Defined.

(** ** The resolver of SRV names *)

Lemma address_leb_refl a : BaseConnection.address_leb a a = true.
Proof. unfold BaseConnection.address_leb. apply orb_true_iff. right.
  apply andb_true_iff. split; [apply Z.eqb_refl|apply Z.leb_refl]. Qed.

Lemma address_leb_total a b :
  BaseConnection.address_leb a b = false -> BaseConnection.address_leb b a = true.
Proof.
  unfold BaseConnection.address_leb. intros H.
  apply orb_false_iff in H as [H1 H2]. apply Z.ltb_ge in H1.
  apply orb_true_iff.
  destruct (Z.eqb_spec (BaseConnection.priority a) (BaseConnection.priority b)) as [E|E].
  - right. simpl in H2. apply Z.leb_gt in H2. rewrite E, Z.eqb_refl. simpl.
    apply Z.leb_le. lia.
  - left. apply Z.ltb_lt. lia.
Qed.

Lemma address_leb_trans a b c :
  BaseConnection.address_leb a b = true -> BaseConnection.address_leb b c = true ->
  BaseConnection.address_leb a c = true.
Proof.
  unfold BaseConnection.address_leb. intros H1 H2.
  apply orb_true_iff in H1. apply orb_true_iff in H2. apply orb_true_iff.
  rewrite !andb_true_iff, !Z.ltb_lt, !Z.eqb_eq, !Z.leb_le in *. lia.
Qed.

Lemma insert_sorted_perm a l : BaseConnection.insert_sorted a l ≡ₚ a :: l.
Proof.
  induction l as [|b l IH]; simpl; [done|].
  destruct (BaseConnection.address_leb a b); [done|].
  rewrite IH. apply perm_swap.
Qed.

Lemma sortBy_perm l : BaseConnection.sortBy l ≡ₚ l.
Proof.
  induction l as [|a l IH]; simpl; [done|].
  rewrite insert_sorted_perm. by rewrite IH.
Qed.

Lemma insert_sorted_sorted a l :
  Sorted (fun x y => BaseConnection.address_leb x y = true) l ->
  Sorted (fun x y => BaseConnection.address_leb x y = true)
         (BaseConnection.insert_sorted a l).
Proof.
  induction 1 as [|b l Hs IH Hhd]; simpl.
  - repeat constructor.
  - destruct (BaseConnection.address_leb a b) eqn:E.
    + constructor; [by constructor|by constructor].
    + constructor; [done|]. destruct Hhd as [|c l' Hbc]; simpl.
      * constructor. by apply address_leb_total.
      * destruct (BaseConnection.address_leb a c); constructor;
          [by apply address_leb_total|done].
Qed.

Lemma sortBy_sorted l :
  Sorted (fun x y => BaseConnection.address_leb x y = true) (BaseConnection.sortBy l).
Proof.
  induction l as [|a l IH]; simpl; [constructor|by apply insert_sorted_sorted].
Qed.

Lemma sortBy_head l :
  match BaseConnection.sortBy l with
  | [] => l = []
  | m :: _ => Forall (fun x => BaseConnection.address_leb m x = true) l
  end.
Proof.
  induction l as [|a l IH]; simpl; [done|].
  destruct (BaseConnection.sortBy l) as [|b r]; simpl.
  - subst l. constructor; [apply address_leb_refl|constructor].
  - destruct (BaseConnection.address_leb a b) eqn:E.
    + constructor; [apply address_leb_refl|].
      eapply Forall_impl; [exact IH|]. intros x Hx. simpl in Hx.
      by apply (address_leb_trans a b x).
    + constructor; [by apply address_leb_total|done].
Qed.

(** [_resolveSrv] asks nothing for an empty name.  For any other name it
    asks the name service once and hands back the same addresses, ordered by
    priority and, among equal priorities, by weight. *)
Theorem resolveSrv_sorted resolveSrv srv s :
  (srv = "" -> BaseConnection._resolveSrv resolveSrv srv s = Ok ([], s))
  /\ (srv <> "" -> forall addresses, resolveSrv srv = Ok addresses ->
      exists sorted,
        BaseConnection._resolveSrv resolveSrv srv s
        = Ok (sorted,
              BaseConnection.mkStatics (BaseConnection.instance s)
                (BaseConnection.events s ++ [BaseConnection.SrvLookup srv]))
        /\ sorted ≡ₚ addresses
        /\ Sorted (fun x y => BaseConnection.address_leb x y = true) sorted).
Proof.
  split.
  - intros ->. reflexivity.
  - intros Hne addresses Hans. exists (BaseConnection.sortBy addresses).
    split; [|split; [apply sortBy_perm|apply sortBy_sorted]].
    unfold BaseConnection._resolveSrv.
    destruct srv; [done|]. simpl.
    unfold BaseConnection.sbind, BaseConnection.emit, BaseConnection.slift,
      BaseConnection.sret. simpl. by rewrite Hans.
Qed.

Lemma resolveSrv_sorted_witness :
  exists sorted s',
    BaseConnection._resolveSrv
      (fun _ => Ok [BaseConnection.mkSrv "b" (VNum 2) 5 1;
                    BaseConnection.mkSrv "a" (VNum 1) 1 9])
      "db.srv" (BaseConnection.mkStatics None [])
    = Ok (sorted, s')
    /\ sorted ≡ₚ [BaseConnection.mkSrv "b" (VNum 2) 5 1;
                  BaseConnection.mkSrv "a" (VNum 1) 1 9].
Proof.
  destruct (resolveSrv_sorted
              (fun _ => Ok [BaseConnection.mkSrv "b" (VNum 2) 5 1;
                            BaseConnection.mkSrv "a" (VNum 1) 1 9])
              "db.srv" (BaseConnection.mkStatics None [])) as [_ H].
  destruct (H ltac:(discriminate) _ eq_refl) as (sorted & Hrun & Hperm & _).
  exists sorted. eexists. split; [exact Hrun|exact Hperm].
Defined.

(** ** [handleSRV] *)

Lemma ends_with_nonempty s suffix :
  suffix <> "" -> BaseConnection.ends_with s suffix = true -> s <> "".
Proof.
  intros Hsuf H ->. unfold BaseConnection.ends_with in H. simpl in H.
  destruct suffix; [done|]. simpl in H. discriminate.
Qed.

(** A configuration with a plain host and no replica host goes through
    [handleSRV] untouched, and no name is looked up.  A configuration
    without a replica host whose host is not a string makes it throw a
    TypeError. *)
Theorem handleSRV_plain resolveSrv config s :
  truthy (prop config "slaveHost") = false ->
  (forall h, prop config "host" = VStr h ->
             BaseConnection.ends_with h ".srv" = false ->
             BaseConnection.handleSRV resolveSrv config s = Ok (config, s))
  /\ ((forall h, prop config "host" <> VStr h) ->
      BaseConnection.handleSRV resolveSrv config s = Throw TypeError).
Proof.
  intros Hslave. split.
  - intros h Hh Hend. unfold BaseConnection.handleSRV.
    rewrite Hslave, Hh, Hend. reflexivity.
  - intros Hh. unfold BaseConnection.handleSRV. rewrite Hslave.
    unfold BaseConnection.sbind, BaseConnection.sret. cbv beta iota.
    destruct (prop config "host") as [| | | | h | | | |]; try reflexivity.
    by destruct (Hh h).
Qed.

Lemma handleSRV_plain_witness :
  BaseConnection.handleSRV no_srv local_config prepared_statics
  = Ok (local_config, prepared_statics)
  /\ BaseConnection.handleSRV no_srv [] prepared_statics = Throw TypeError.
Proof.
  split.
  - destruct (handleSRV_plain no_srv local_config prepared_statics eq_refl) as [H _].
    apply (H "localhost"); reflexivity.
  - destruct (handleSRV_plain no_srv [] prepared_statics eq_refl) as [_ H].
    apply H. discriminate.
Defined.

(** With a host that is an SRV name and no replica host, [handleSRV] looks
    the name up once and writes to the address that comes first by priority
    and then weight: no resolved address is strictly before it.  The keys
    [host], [port] and [slaveHost] go, [replication] comes.  When the name
    resolves to nothing it throws a TypeError. *)
Theorem handleSRV_master resolveSrv config h s addresses :
  truthy (prop config "slaveHost") = false ->
  prop config "host" = VStr h ->
  BaseConnection.ends_with h ".srv" = true ->
  resolveSrv h = Ok addresses ->
  (addresses = [] -> BaseConnection.handleSRV resolveSrv config s = Throw TypeError)
  /\ (addresses <> [] ->
      exists master,
        BaseConnection.handleSRV resolveSrv config s
        = Ok (set_prop
                (BaseConnection.without "slaveHost"
                   (BaseConnection.without "port"
                      (BaseConnection.without "host" config)))
                "replication"
                (VObj [("read", VArr []);
                       ("write", BaseConnection.host_and_port master)]),
              BaseConnection.mkStatics (BaseConnection.instance s)
                (BaseConnection.events s ++ [BaseConnection.SrvLookup h]))
        /\ master ∈ addresses
        /\ forall a, a ∈ addresses -> BaseConnection.address_leb master a = true).
Proof.
  intros Hslave Hh Hend Hans.
  assert (Hne : h <> "") by (eapply ends_with_nonempty; [|exact Hend]; done).
  assert (Hrun : BaseConnection._resolveSrv resolveSrv h s
                 = Ok (BaseConnection.sortBy addresses,
                       BaseConnection.mkStatics (BaseConnection.instance s)
                         (BaseConnection.events s ++ [BaseConnection.SrvLookup h]))).
  { unfold BaseConnection._resolveSrv. destruct h; [done|]. simpl.
    unfold BaseConnection.sbind, BaseConnection.emit, BaseConnection.slift,
      BaseConnection.sret. simpl. by rewrite Hans. }
  assert (Hall : BaseConnection.handleSRV resolveSrv config s
                 = match BaseConnection.sortBy addresses with
                   | master :: _ =>
                       Ok (set_prop
                             (BaseConnection.without "slaveHost"
                                (BaseConnection.without "port"
                                   (BaseConnection.without "host" config)))
                             "replication"
                             (VObj [("read", VArr []);
                                    ("write", BaseConnection.host_and_port master)]),
                           BaseConnection.mkStatics (BaseConnection.instance s)
                             (BaseConnection.events s ++ [BaseConnection.SrvLookup h]))
                   | [] => Throw TypeError
                   end).
  { unfold BaseConnection.handleSRV. rewrite Hslave, Hh, Hend.
    unfold BaseConnection.sbind at 1. unfold BaseConnection.sret at 1.
    cbv beta iota. cbn [negb]. unfold BaseConnection.sbind at 1. rewrite Hrun.
    by destruct (BaseConnection.sortBy addresses). }
  rewrite Hall. pose proof (sortBy_head addresses) as Hhead.
  pose proof (sortBy_perm addresses) as Hperm.
  split.
  - intros ->. reflexivity.
  - intros Hnonempty. destruct (BaseConnection.sortBy addresses) as [|m r].
    + by destruct Hnonempty.
    + exists m. split; [done|]. split.
      * rewrite <- Hperm. by left.
      * intros a Ha. by apply (proj1 (Forall_forall _ _) Hhead).
Qed.

Lemma handleSRV_master_witness :
  exists master s',
    BaseConnection.handleSRV
      (fun _ => Ok [BaseConnection.mkSrv "b" (VNum 2) 5 1;
                    BaseConnection.mkSrv "a" (VNum 1) 1 9])
      [("host", VStr "db.srv"); ("dialect", VStr "mysql")]
      (BaseConnection.mkStatics None [])
    = Ok ([("dialect", VStr "mysql");
           ("replication",
            VObj [("read", VArr []); ("write", BaseConnection.host_and_port master)])],
          s')
    /\ BaseConnection.address_leb master (BaseConnection.mkSrv "b" (VNum 2) 5 1) = true.
Proof.
  destruct (handleSRV_master
              (fun _ => Ok [BaseConnection.mkSrv "b" (VNum 2) 5 1;
                            BaseConnection.mkSrv "a" (VNum 1) 1 9])
              [("host", VStr "db.srv"); ("dialect", VStr "mysql")] "db.srv"
              (BaseConnection.mkStatics None []) _ eq_refl eq_refl eq_refl eq_refl)
    as [_ H].
  destruct (H ltac:(discriminate)) as (master & Hrun & _ & Hmin).
  exists master. eexists. split; [exact Hrun|]. apply Hmin. by left.
Defined.

Lemma assoc_without_eq k o : assoc k (BaseConnection.without k o) = None.
Proof.
  unfold BaseConnection.without. induction o as [|[k' v] o IH]; simpl; [done|].
  destruct (k' =? k) eqn:E; simpl; [done|]. by rewrite E.
Qed.

Lemma assoc_without_ne k k' o : k <> k' -> assoc k (BaseConnection.without k' o) = assoc k o.
Proof.
  intros Hne. unfold BaseConnection.without.
  induction o as [|[k0 v] o IH]; simpl; [done|].
  destruct (k0 =? k') eqn:E; simpl.
  - apply String.eqb_eq in E; subst k0.
    destruct (k' =? k) eqn:E'; [|done]. apply String.eqb_eq in E'. congruence.
  - by rewrite IH.
Qed.

(** With a plain host and a comma-separated list of replica hosts,
    [handleSRV] looks nothing up.  [replication.read] holds one entry for
    each item of the list, in order, and at least one; [replication.write] is the host
    and port of the configuration.  At the top level [host], [port] and
    [slaveHost] are gone and every other key is as it was. *)
Theorem handleSRV_replicas resolveSrv config h sh s :
  prop config "host" = VStr h ->
  BaseConnection.ends_with h ".srv" = false ->
  prop config "slaveHost" = VStr sh ->
  sh <> "" ->
  BaseConnection.ends_with sh ".srv" = false ->
  exists result,
    BaseConnection.handleSRV resolveSrv config s = Ok (result, s)
    /\ assoc "replication" result
       = Some (VObj [("read", VArr (List.map BaseConnection.replica (split sh ",")));
                     ("write", VObj [("host", VStr h); ("port", prop config "port")])])
    /\ List.map BaseConnection.replica (split sh ",") <> []
    /\ assoc "host" result = None
    /\ assoc "port" result = None
    /\ assoc "slaveHost" result = None
    /\ (forall k, k <> "host" -> k <> "port" -> k <> "slaveHost" -> k <> "replication" ->
        assoc k result = assoc k config).
Proof.
  intros Hh Hend Hsh Hne Hsend.
  assert (Htr : truthy (VStr sh) = true).
  { simpl. destruct sh; [done|reflexivity]. }
  eexists. split.
  - unfold BaseConnection.handleSRV. rewrite Hsh, Htr, Hsend, Hh, Hend. reflexivity.
  - split; [apply assoc_set_prop_eq|]. split.
    { pose proof (split_go_nonempty "," [] (chars sh)) as Hs. unfold split.
      destruct (split_go "," [] (chars sh)); [done|discriminate]. }
    rewrite !assoc_set_prop_ne by done.
    split; [|split; [|split]].
    + rewrite !assoc_without_ne by done. apply assoc_without_eq.
    + rewrite assoc_without_ne by done. apply assoc_without_eq.
    + apply assoc_without_eq.
    + intros k H1 H2 H3 H4. rewrite assoc_set_prop_ne by done.
      by rewrite !assoc_without_ne by done.
Qed.

Lemma handleSRV_replicas_witness :
  exists result,
    BaseConnection.handleSRV no_srv
      [("host", VStr "db"); ("port", VNum 3306); ("slaveHost", VStr "r1,r2");
       ("dialect", VStr "mysql")]
      (BaseConnection.mkStatics None [])
    = Ok (result, BaseConnection.mkStatics None [])
    /\ assoc "host" result = None
    /\ assoc "dialect" result = Some (VStr "mysql").
Proof.
  destruct (handleSRV_replicas no_srv
              [("host", VStr "db"); ("port", VNum 3306); ("slaveHost", VStr "r1,r2");
               ("dialect", VStr "mysql")]
              "db" "r1,r2" (BaseConnection.mkStatics None [])
              eq_refl eq_refl eq_refl ltac:(discriminate) eq_refl)
    as (result & Hrun & _ & _ & Hhost & _ & _ & Hother).
  exists result. split; [exact Hrun|]. split; [exact Hhost|].
  rewrite Hother; [reflexivity|discriminate..].
Defined.

(** ** Replica entries *)

Lemma chars_app a b : chars (a ++ b) = chars a ++ chars b.
Proof. induction a as [|c a IH]; simpl; [done|]. by rewrite <- IH. Qed.

Lemma split_go_no_sep sep acc l :
  existsb (Ascii.eqb sep) l = false ->
  split_go sep acc l = [of_chars (rev acc ++ l)].
Proof.
  revert acc. induction l as [|c l IH]; intros acc H; simpl in *.
  - by rewrite app_nil_r.
  - apply orb_false_iff in H as [Hc Hl]. rewrite Ascii.eqb_sym, Hc.
    rewrite IH by done. simpl. by rewrite <- app_assoc.
Qed.

Lemma split_go_at_sep sep acc l1 l2 :
  existsb (Ascii.eqb sep) l1 = false ->
  split_go sep acc (l1 ++ sep :: l2) = of_chars (rev acc ++ l1) :: split_go sep [] l2.
Proof.
  revert acc. induction l1 as [|c l1 IH]; intros acc H; simpl in *.
  - rewrite Ascii.eqb_refl. by rewrite app_nil_r.
  - apply orb_false_iff in H as [Hc Hl]. rewrite Ascii.eqb_sym, Hc.
    rewrite IH by done. simpl. by rewrite <- app_assoc.
Qed.

Lemma split_single s sep : includes_char sep s = false -> split s sep = [s].
Proof.
  intros H. unfold split. rewrite split_go_no_sep by exact H. simpl.
  unfold of_chars, chars. by rewrite string_of_list_ascii_of_string.
Qed.

Lemma split_cons a b sep :
  includes_char sep a = false ->
  split (a ++ String sep b) sep = a :: split b sep.
Proof.
  intros H. unfold split. rewrite chars_app. simpl.
  rewrite split_go_at_sep by exact H. simpl.
  unfold of_chars, chars. by rewrite string_of_list_ascii_of_string.
Qed.

Lemma includes_app c a b :
  includes_char c (a ++ b) = includes_char c a || includes_char c b.
Proof.
  unfold includes_char, char_in. rewrite chars_app. apply existsb_app.
Qed.

Lemma truthy_str s : s <> "" -> truthy (VStr s) = true.
Proof. intros H. simpl. destruct s; [done|reflexivity]. Qed.

(** How one item of the replica list is read.  [user:password@host:port]
    gives the four parts.  [host:port] without credentials gives the host
    and the port, and the same two strings again as user name and password;
    a bare [host] gives the host, and the host again as user name. *)
Theorem replica_parts u p h pt :
  includes_char ":" u = false -> includes_char "@" u = false ->
  includes_char ":" p = false -> includes_char "@" p = false ->
  includes_char ":" h = false -> includes_char "@" h = false ->
  includes_char ":" pt = false -> includes_char "@" pt = false ->
  u <> "" -> p <> "" -> h <> "" -> pt <> "" ->
  BaseConnection.replica ((u ++ ":" ++ p) ++ "@" ++ (h ++ ":" ++ pt))
  = VObj [("host", VStr h); ("port", VStr pt);
          ("username", VStr u); ("password", VStr p)]
  /\ BaseConnection.replica (h ++ ":" ++ pt)
     = VObj [("host", VStr h); ("port", VStr pt);
             ("username", VStr h); ("password", VStr pt)]
  /\ BaseConnection.replica h
     = VObj [("host", VStr h); ("username", VStr h)].
Proof.
  intros Hu1 Hu2 Hp1 Hp2 Hh1 Hh2 Hpt1 Hpt2 Hu Hp Hh Hpt.
  assert (Hup : includes_char "@" (u ++ ":" ++ p) = false).
  { rewrite includes_app, Hu2. simpl. exact Hp2. }
  assert (Hhp : includes_char "@" (h ++ ":" ++ pt) = false).
  { rewrite includes_app, Hh2. simpl. exact Hpt2. }
  assert (Hhp_ne : (h ++ ":" ++ pt)%string <> "") by (by destruct h).
  assert (Hup_ne : (u ++ ":" ++ p)%string <> "") by (by destruct u).
  assert (Ssplit : forall a b, includes_char ":" a = false -> includes_char ":" b = false ->
                     split (a ++ ":" ++ b) ":" = [a; b]).
  { intros a b Ha Hb. change (a ++ ":" ++ b)%string with (a ++ String ":" b)%string.
    rewrite split_cons by done. rewrite split_single by done. reflexivity. }
  split; [|split]; unfold BaseConnection.replica; cbv zeta.
  - change ((u ++ ":" ++ p) ++ "@" ++ h ++ ":" ++ pt)%string
      with ((u ++ ":" ++ p) ++ String "@" (h ++ ":" ++ pt))%string.
    rewrite split_cons by done.
    rewrite (split_single (h ++ ":" ++ pt) "@") by done.
    cbn [nth lookup list_lookup BaseConnection.opt_str].
    unfold js_or. rewrite (truthy_str _ Hhp_ne).
    rewrite !Ssplit by done.
    cbn [nth lookup list_lookup BaseConnection.opt_str].
    by rewrite !truthy_str by done.
  - rewrite (split_single (h ++ ":" ++ pt) "@") by done.
    cbn [nth lookup list_lookup BaseConnection.opt_str].
    replace (js_or VUndef (VStr (h ++ ":" ++ pt))) with (VStr (h ++ ":" ++ pt))
      by reflexivity.
    rewrite !Ssplit by done.
    cbn [nth lookup list_lookup BaseConnection.opt_str].
    by rewrite !truthy_str by done.
  - rewrite (split_single h "@") by done.
    cbn [nth lookup list_lookup BaseConnection.opt_str].
    replace (js_or VUndef (VStr h)) with (VStr h) by reflexivity.
    rewrite (split_single h ":") by done.
    cbn [nth lookup list_lookup BaseConnection.opt_str].
    rewrite (truthy_str _ Hh). reflexivity.
Qed.

Lemma replica_parts_witness :
  BaseConnection.replica "ro:secret@db2:3307"
  = VObj [("host", VStr "db2"); ("port", VStr "3307");
          ("username", VStr "ro"); ("password", VStr "secret")]
  /\ BaseConnection.replica "db2:3307"
     = VObj [("host", VStr "db2"); ("port", VStr "3307");
             ("username", VStr "db2"); ("password", VStr "3307")].
Proof.
  destruct (replica_parts "ro" "secret" "db2" "3307")
    as (Hfull & Hbare & _); try reflexivity; try discriminate.
  split; [exact Hfull|exact Hbare].
Defined.

(** ** The instance and its registry *)

(** [getInstance] makes the instance once: a call returns the instance that
    then is the static one, adds no event, and any later call, whatever its
    configuration, returns that same instance and changes nothing. *)
Theorem getInstance_singleton config1 config2 s c s1 :
  BaseConnection.getInstance config1 s = Ok (c, s1) ->
  BaseConnection.instance s1 = Some c
  /\ BaseConnection.events s1 = BaseConnection.events s
  /\ BaseConnection.getInstance config2 s1 = Ok (c, s1).
Proof.
  unfold BaseConnection.getInstance.
  destruct (BaseConnection.instance s) as [c0|] eqn:E.
  - intros [= <- <-]. by rewrite E.
  - match goal with
    | |- context [obind ?m _] => destruct m as [cfg|]; cbn [obind]; [|done]
    end.
    intros [= <- <-]. done.
Qed.

Lemma getInstance_singleton_witness :
  BaseConnection.getInstance [("host", VStr "elsewhere")] prepared_statics
  = Ok (BaseConnection.mkConnection (VObj []) [("user", VModel 1)] local_config,
        prepared_statics).
Proof.
  apply (getInstance_singleton local_config [("host", VStr "elsewhere")]
           prepared_statics _ prepared_statics eq_refl).
Defined.

Lemma dashes_removed s : includes_char "-" (BaseConnection.dashes_to_underscores s) = false.
Proof.
  unfold BaseConnection.dashes_to_underscores. rewrite includes_of_chars.
  induction (chars s) as [|c l IH]; [done|]. cbn [List.map existsb].
  rewrite IH, orb_false_r.
  destruct (Ascii.eqb c "-") eqn:E; [done|]. by rewrite Ascii.eqb_sym.
Qed.

Lemma dashes_none s :
  includes_char "-" s = false -> BaseConnection.dashes_to_underscores s = s.
Proof.
  unfold BaseConnection.dashes_to_underscores, includes_char, char_in. intros H.
  assert (Hmap : List.map (fun c => if Ascii.eqb c "-" then "_"%char else c) (chars s)
                 = chars s).
  { induction (chars s) as [|c l IH]; [done|]. cbn [List.map existsb] in *.
    apply orb_false_iff in H as [Hc Hl]. rewrite Ascii.eqb_sym, Hc. by rewrite IH. }
  rewrite Hmap. unfold of_chars, chars. apply string_of_list_ascii_of_string.
Qed.

(** The first [getInstance] stores the configuration with the schema name
    normalised: when [define.schema] is a string, the stored one holds no
    dash, and is the given one when that held none; the connection starts
    with an empty registry and a database handle.  A [define.schema] that is
    truthy but not a string makes the call throw a TypeError. *)
Theorem getInstance_schema config df s :
  BaseConnection.instance s = None ->
  prop config "define" = VObj df ->
  (forall sch, prop df "schema" = VStr sch ->
     exists c sch',
       BaseConnection.getInstance config s
       = Ok (c, BaseConnection.mkStatics (Some c) (BaseConnection.events s))
       /\ BaseConnection.db c = VObj []
       /\ BaseConnection.models c = []
       /\ prop (own_props (prop (BaseConnection.config c) "define")) "schema" = VStr sch'
       /\ includes_char "-" sch' = false
       /\ (includes_char "-" sch = false -> sch' = sch)
       /\ (forall k, k <> "define" ->
           assoc k (BaseConnection.config c) = assoc k config))
  /\ (truthy (prop df "schema") = true -> (forall sch, prop df "schema" <> VStr sch) ->
      BaseConnection.getInstance config s = Throw TypeError).
Proof.
  intros Hinst Hdef. split.
  - intros sch Hsch. unfold BaseConnection.getInstance.
    rewrite Hinst, Hdef. cbn [nullish own_props]. rewrite Hsch.
    destruct (truthy (VStr sch)) eqn:Et; cbn [obind].
    + do 2 eexists. split; [reflexivity|]. cbn.
      split; [done|]. split; [done|].
      rewrite prop_set_prop_eq. cbn [own_props]. rewrite prop_set_prop_eq.
      split; [done|]. split; [apply dashes_removed|]. split.
      * apply dashes_none.
      * intros k Hk. by rewrite assoc_set_prop_ne.
    + assert (sch = "") as -> by (destruct sch; [done|discriminate]).
      exists (BaseConnection.mkConnection (VObj []) [] config), "".
      split; [reflexivity|]. cbn. rewrite Hdef. cbn [own_props]. by rewrite Hsch.
  - intros Ht Hns. unfold BaseConnection.getInstance.
    rewrite Hinst, Hdef. cbn [nullish own_props]. rewrite Ht.
    destruct (prop df "schema") as [| | | | sch | | | |]; try reflexivity.
    by destruct (Hns sch).
Qed.

Lemma getInstance_schema_witness :
  exists c,
    BaseConnection.getInstance
      [("host", VStr "db"); ("define", VObj [("schema", VStr "shop-eu-1")])]
      (BaseConnection.mkStatics None [])
    = Ok (c, BaseConnection.mkStatics (Some c) [])
    /\ prop (own_props (prop (BaseConnection.config c) "define")) "schema"
       = VStr "shop_eu_1".
Proof.
  destruct (getInstance_schema
              [("host", VStr "db"); ("define", VObj [("schema", VStr "shop-eu-1")])]
              [("schema", VStr "shop-eu-1")] (BaseConnection.mkStatics None [])
              eq_refl eq_refl) as [H _].
  destruct (H "shop-eu-1" eq_refl) as (c & sch' & Hrun & _ & _ & Hs & _).
  exists c. split; [exact Hrun|].
  vm_compute in Hrun. injection Hrun as <-. reflexivity.
Defined.

(** [addModel] then [getModels]: the registry maps the name to the model
    just added and every other name to what it had; database handle,
    configuration and events are untouched.  Without an instance [addModel]
    throws. *)
Theorem addModel_then_getModels name model s :
  (forall c, BaseConnection.instance s = Some c ->
     exists s1 registry c1,
       BaseConnection.addModel name model s = Ok (tt, s1)
       /\ BaseConnection.getModels s1 = Ok (registry, s1)
       /\ prop registry name = model
       /\ (forall other, other <> name ->
           prop registry other = prop (BaseConnection.models c) other)
       /\ BaseConnection.instance s1 = Some c1
       /\ BaseConnection.db c1 = BaseConnection.db c
       /\ BaseConnection.config c1 = BaseConnection.config c
       /\ BaseConnection.events s1 = BaseConnection.events s)
  /\ (BaseConnection.instance s = None ->
      BaseConnection.addModel name model s = Throw TypeError).
Proof.
  split.
  - intros c Hc. unfold BaseConnection.addModel, BaseConnection.getModels. rewrite Hc.
    do 3 eexists. split; [reflexivity|]. cbn. split; [reflexivity|].
    split; [apply prop_set_prop_eq|]. split; [|done].
    intros other Hne. by apply prop_set_prop_ne.
  - intros Hn. unfold BaseConnection.addModel. by rewrite Hn.
Qed.

Lemma addModel_then_getModels_witness :
  exists s1 registry,
    BaseConnection.addModel "order" (VModel 2) prepared_statics = Ok (tt, s1)
    /\ BaseConnection.getModels s1 = Ok (registry, s1)
    /\ prop registry "order" = VModel 2
    /\ prop registry "user" = VModel 1.
Proof.
  destruct (addModel_then_getModels "order" (VModel 2) prepared_statics) as [H _].
  destruct (H _ eq_refl) as (s1 & registry & c1 & Hadd & Hget & Hnew & Hold & _).
  exists s1, registry. split; [exact Hadd|]. split; [exact Hget|]. split; [exact Hnew|].
  rewrite Hold; [reflexivity|discriminate].
Defined.

(** ** [prepare], the first time *)

Lemma resolveSrv_events resolveSrv srv s addresses s' :
  BaseConnection._resolveSrv resolveSrv srv s = Ok (addresses, s') ->
  BaseConnection.instance s' = BaseConnection.instance s
  /\ exists lookups,
       BaseConnection.events s'
       = BaseConnection.events s ++ List.map BaseConnection.SrvLookup lookups.
Proof.
  unfold BaseConnection._resolveSrv.
  destruct (String.length srv =? 0)%nat.
  - intros [= <- <-]. split; [done|]. exists []. by rewrite app_nil_r.
  - unfold BaseConnection.sbind, BaseConnection.emit, BaseConnection.slift,
      BaseConnection.sret. simpl.
    destruct (resolveSrv srv); [|done]. intros [= <- <-]. split; [done|].
    by exists [srv].
Qed.

Lemma handleSRV_events resolveSrv config s config' s' :
  BaseConnection.handleSRV resolveSrv config s = Ok (config', s') ->
  BaseConnection.instance s' = BaseConnection.instance s
  /\ exists lookups,
       BaseConnection.events s'
       = BaseConnection.events s ++ List.map BaseConnection.SrvLookup lookups.
Proof.
  unfold BaseConnection.handleSRV.
  set (readM := if truthy (prop config "slaveHost") then _ else _).
  unfold BaseConnection.sbind at 1.
  assert (Hread : forall read s1, readM s = Ok (read, s1) ->
            BaseConnection.instance s1 = BaseConnection.instance s
            /\ exists lookups,
                 BaseConnection.events s1
                 = BaseConnection.events s ++ List.map BaseConnection.SrvLookup lookups).
  { subst readM. intros read s1.
    destruct (truthy (prop config "slaveHost")).
    - destruct (prop config "slaveHost") as [| | | | sh | | | |]; try done.
      destruct (negb (BaseConnection.ends_with sh ".srv")).
      + intros [= <- <-]. split; [done|]. exists []. by rewrite app_nil_r.
      + unfold BaseConnection.sbind.
        destruct (BaseConnection._resolveSrv resolveSrv sh s) as [[slaves s2]|] eqn:E;
          [|done].
        intros [= <- <-]. by apply (resolveSrv_events _ _ _ _ _ E).
    - intros [= <- <-]. split; [done|]. exists []. by rewrite app_nil_r. }
  destruct (readM s) as [[read s1]|]; [|done].
  destruct (Hread read s1 eq_refl) as (Hi1 & l1 & He1).
  destruct (prop config "host") as [| | | | h | | | |]; try done.
  destruct (negb (BaseConnection.ends_with h ".srv")).
  - destruct (negb (truthy (prop config "slaveHost")));
      intros [= <- <-]; (split; [done|by exists l1]).
  - unfold BaseConnection.sbind.
    destruct (BaseConnection._resolveSrv resolveSrv h s1) as [[masters s2]|] eqn:E;
      [|done].
    destruct (resolveSrv_events _ _ _ _ _ E) as (Hi2 & l2 & He2).
    destruct masters; [done|]. intros [= <- <-].
    split; [congruence|]. exists (l1 ++ l2).
    by rewrite He2, He1, map_app, app_assoc.
Qed.

Lemma create_models_run db sequelize modelConfig entries :
  forall s c,
    BaseConnection.instance s = Some c ->
    BaseConnection.create_models db sequelize modelConfig entries s
    = Ok (created db sequelize modelConfig entries,
          BaseConnection.mkStatics
            (Some (BaseConnection.mkConnection (BaseConnection.db c)
                     (registered db sequelize modelConfig entries
                                 (BaseConnection.models c))
                     (BaseConnection.config c)))
            (BaseConnection.events s
             ++ List.map (fun e => BaseConnection.ModelInitialised (fst e)) entries)).
Proof.
  induction entries as [|[name init] entries IH]; intros s c Hc.
  - simpl. unfold BaseConnection.sret. rewrite app_nil_r.
    destruct s as [i ev], c as [d m cf]. simpl in *. by rewrite Hc.
  - cbn [BaseConnection.create_models].
    unfold BaseConnection.sbind at 1. unfold BaseConnection.emit.
    unfold BaseConnection.sbind at 1. unfold BaseConnection.addModel at 1.
    cbn [BaseConnection.instance BaseConnection.events]. rewrite Hc.
    unfold BaseConnection.sbind at 1.
    erewrite IH; [|reflexivity]. unfold BaseConnection.sret.
    cbn [BaseConnection.db BaseConnection.models BaseConnection.config
         BaseConnection.events created registered List.map fold_left fst snd].
    by rewrite <- app_assoc.
Qed.

Lemma run_associations_run associations :
  forall s c s',
    BaseConnection.instance s = Some c ->
    BaseConnection.run_associations associations s = Ok (tt, s') ->
    s' = BaseConnection.mkStatics (Some c)
           (BaseConnection.events s
            ++ replicate (length associations)
                 (BaseConnection.AssociationRun (BaseConnection.models c))).
Proof.
  induction associations as [|asoc associations IH]; intros s c s' Hc.
  - simpl. unfold BaseConnection.sret. intros [= <-]. rewrite app_nil_r.
    destruct s as [i ev]. simpl in *. by rewrite Hc.
  - cbn [BaseConnection.run_associations].
    unfold BaseConnection.sbind at 1. unfold BaseConnection.getModels at 1.
    rewrite Hc. unfold BaseConnection.sbind at 1. unfold BaseConnection.emit.
    unfold BaseConnection.sbind at 1. unfold BaseConnection.slift.
    destruct (asoc (BaseConnection.models c)); [|done].
    intros Hrest. apply (IH _ c) in Hrest; [|cbn; exact Hc].
    rewrite Hrest. cbn. by rewrite <- app_assoc.
Qed.

Lemma registered_other db sequelize modelConfig entries :
  forall acc name,
    name ∉ List.map fst entries ->
    prop (registered db sequelize modelConfig entries acc) name = prop acc name.
Proof.
  induction entries as [|[n init] entries IH]; intros acc name Hn; [done|].
  cbn [registered fold_left fst snd]. cbn [List.map fst] in Hn.
  apply not_elem_of_cons in Hn as [Hne Hn].
  change (prop (registered db sequelize modelConfig entries
                  (set_prop acc n (BaseConnection.model_value (init db sequelize modelConfig))))
               name = prop acc name).
  rewrite IH by done. by apply prop_set_prop_ne.
Qed.

Lemma registered_lookup db sequelize modelConfig entries :
  forall acc name init,
    NoDup (List.map fst entries) ->
    (name, init) ∈ entries ->
    prop (registered db sequelize modelConfig entries acc) name
    = BaseConnection.model_value (init db sequelize modelConfig).
Proof.
  induction entries as [|[n i] entries IH]; intros acc name init Hnd Hin.
  - by apply elem_of_nil in Hin.
  - cbn [List.map fst] in Hnd. apply NoDup_cons in Hnd as [Hn Hnd].
    change (prop (registered db sequelize modelConfig entries
                    (set_prop acc n (BaseConnection.model_value (i db sequelize modelConfig))))
                 name = BaseConnection.model_value (init db sequelize modelConfig)).
    apply elem_of_cons in Hin as [[= -> ->]|Hin].
    + rewrite registered_other by done. apply prop_set_prop_eq.
    + by apply IH.
Qed.

(** What a first [prepare] that returns has done. *)
Lemma prepare_first_run resolveSrv entries config modelConfig s r s' :
  BaseConnection.instance s = None ->
  BaseConnection.prepare resolveSrv entries config modelConfig s = Ok (r, s') ->
  exists c lookups,
    BaseConnection.instance s' = Some c
    /\ BaseConnection.db c = VObj []
    /\ BaseConnection.models c = registered (VObj []) (VObj []) modelConfig entries []
    /\ r = BaseConnection.PReady (VObj [])
             (omap BaseConnection.insertDefault
                   (created (VObj []) (VObj []) modelConfig entries))
    /\ BaseConnection.events s'
       = BaseConnection.events s
         ++ List.map BaseConnection.SrvLookup lookups
         ++ [BaseConnection.DatabaseChecked]
         ++ List.map (fun e => BaseConnection.ModelInitialised (fst e)) entries
         ++ replicate
              (length (omap BaseConnection.associate
                         (created (VObj []) (VObj []) modelConfig entries)))
              (BaseConnection.AssociationRun (BaseConnection.models c)).
Proof.
  intros Hnone. unfold BaseConnection.prepare. rewrite Hnone.
  unfold BaseConnection.sbind at 1.
  destruct (BaseConnection.handleSRV resolveSrv config s) as [[handled s1]|] eqn:Eh;
    [|done].
  destruct (handleSRV_events _ _ _ _ _ Eh) as (Hi1 & lookups & He1).
  unfold BaseConnection.sbind at 1. unfold BaseConnection.getInstance at 1.
  rewrite Hi1, Hnone.
  match goal with
  | |- context [obind ?m _] => destruct m as [cfg|]; cbn [obind]; [|done]
  end.
  unfold BaseConnection.sbind at 1.
  unfold BaseConnection.checkDatabaseExist, BaseConnection.sbind at 1.
  unfold BaseConnection.emit, BaseConnection.sret at 1.
  cbn [BaseConnection.instance BaseConnection.events].
  unfold BaseConnection.sbind at 1.
  unfold BaseConnection.getDb, BaseConnection.getSequelize,
    BaseConnection.createDbConnection.
  cbn [BaseConnection.db BaseConnection.models BaseConnection.config].
  erewrite create_models_run; [|reflexivity].
  cbn [BaseConnection.db BaseConnection.models BaseConnection.config
       BaseConnection.events].
  unfold BaseConnection.sbind at 1.
  match goal with
  | |- context [BaseConnection.run_associations ?a ?st] =>
      destruct (BaseConnection.run_associations a st) as [[[] s2]|] eqn:Er; [|done]
  end.
  apply run_associations_run with (c := BaseConnection.mkConnection (VObj [])
            (registered (VObj []) (VObj []) modelConfig entries []) cfg) in Er;
    [|reflexivity].
  unfold BaseConnection.sret. intros [= <- <-]. subst s2.
  eexists _, lookups. split; [reflexivity|]. split; [reflexivity|].
  split; [reflexivity|]. split; [reflexivity|].
  cbn [BaseConnection.events BaseConnection.models]. rewrite He1.
  by rewrite <- !app_assoc.
Qed.

(** A first [prepare] that returns has made the instance, with every
    entry's model in the registry under the entry's name (the model its
    initialiser returned, for names that occur once), and hands back the
    database handle.  The trace shows the order of the work: name lookups,
    the database check, one initialisation for each entry in order, and only
    then the associations, each of which is given the complete registry. *)
Theorem prepare_registers resolveSrv entries config modelConfig s r s' :
  BaseConnection.instance s = None ->
  BaseConnection.prepare resolveSrv entries config modelConfig s = Ok (r, s') ->
  exists c lookups insertDefaults,
    BaseConnection.instance s' = Some c
    /\ r = BaseConnection.PReady (BaseConnection.db c) insertDefaults
    /\ (NoDup (List.map fst entries) ->
        forall name init, (name, init) ∈ entries ->
          prop (BaseConnection.models c) name
          = BaseConnection.model_value (init (VObj []) (VObj []) modelConfig))
    /\ (forall name, name ∉ List.map fst entries ->
        prop (BaseConnection.models c) name = VUndef)
    /\ BaseConnection.events s'
       = BaseConnection.events s
         ++ List.map BaseConnection.SrvLookup lookups
         ++ [BaseConnection.DatabaseChecked]
         ++ List.map (fun e => BaseConnection.ModelInitialised (fst e)) entries
         ++ replicate
              (length (omap BaseConnection.associate
                         (created (VObj []) (VObj []) modelConfig entries)))
              (BaseConnection.AssociationRun (BaseConnection.models c)).
Proof.
  intros Hnone Hrun.
  destruct (prepare_first_run _ _ _ _ _ _ _ Hnone Hrun)
    as (c & lookups & Hc & Hdb & Hm & Hr & He).
  exists c, lookups. eexists. split; [done|]. split; [by rewrite Hdb|].
  split; [|split; [|done]].
  - intros Hnd name init Hin. rewrite Hm. by apply registered_lookup.
  - intros name Hn. rewrite Hm. by rewrite registered_other.
Qed.

Lemma prepare_registers_witness :
  exists c,
    BaseConnection.instance prepared_statics = Some c
    /\ prop (BaseConnection.models c) "user" = VModel 1
    /\ prop (BaseConnection.models c) "order" = VUndef.
Proof.
  destruct (prepare_registers no_srv [("user", user_model)] local_config VUndef
              (BaseConnection.mkStatics None []) _ prepared_statics eq_refl eq_refl)
    as (c & lookups & ins & Hc & _ & Hin & Hout & _).
  exists c. split; [exact Hc|]. split.
  - apply (Hin (NoDup_singleton "user") "user" user_model). by left.
  - apply Hout. rewrite list_elem_of_In. simpl. intros [H|[]]. discriminate H.
Defined.

(** [prepare] does its work at most once: after any call that returned,
    every further call, with whatever arguments, returns [false] and changes
    nothing. *)
Theorem prepare_at_most_once resolveSrv entries config modelConfig s r s' :
  BaseConnection.prepare resolveSrv entries config modelConfig s = Ok (r, s') ->
  forall resolveSrv2 entries2 config2 modelConfig2,
    BaseConnection.prepare resolveSrv2 entries2 config2 modelConfig2 s'
    = Ok (BaseConnection.PFalse, s').
Proof.
  intros Hrun resolveSrv2 entries2 config2 modelConfig2.
  assert (Hsome : exists c, BaseConnection.instance s' = Some c).
  { destruct (BaseConnection.instance s) as [c0|] eqn:E.
    - unfold BaseConnection.prepare in Hrun. rewrite E in Hrun.
      injection Hrun as _ <-. by exists c0.
    - destruct (prepare_first_run _ _ _ _ _ _ _ E Hrun) as (c & _ & Hc & _).
      by exists c. }
  destruct Hsome as [c Hc]. unfold BaseConnection.prepare. by rewrite Hc.
Qed.

Lemma prepare_at_most_once_witness :
  BaseConnection.prepare no_srv [] [] VNull prepared_statics
  = Ok (BaseConnection.PFalse, prepared_statics).
Proof.
  apply (prepare_at_most_once no_srv [("user", user_model)] local_config VUndef
           (BaseConnection.mkStatics None []) (BaseConnection.PReady (VObj []) [])
           prepared_statics eq_refl).
Defined.

(** ** Sigils of a sort token *)






(** ** Errors of [getQuery] *)

(** [getQuery] on an existing base descriptor fails only where
    [getOrderBy] or [getInclude] fails, and with their error: the tokens are
    resolved only for a list query whose base descriptor has no order.  When
    neither fails the call returns. *)
Theorem getQuery_failures toQuery qc isOne w d :
  base_content w qc = Some d ->
  (forall e, getQuery toQuery qc isOne w = Throw e ->
     (isOne = false /\ nullish (prop d "order") = true
      /\ getOrderBy (self w) VUndef = Throw e)
     \/ getInclude toQuery (self w) = Throw e)
  /\ (forall includes,
        getInclude toQuery (self w) = Ok includes ->
        isOne = true \/ nullish (prop d "order") = false
        \/ (exists terms, getOrderBy (self w) VUndef = Ok terms) ->
        exists l w', getQuery toQuery qc isOne w = Ok (l, w')).
Proof.
  intros Hd. rewrite (getQuery_run _ _ _ _ _ Hd). split.
  - intros e. destruct (assemble toQuery (self w) isOne d) as [d'|e'] eqn:Ha;
      cbn [obind]; [done|].
    intros [= ->]. destruct (assemble_throw _ _ _ _ _ Ha) as [Ho|Hi]; [left|by right].
    revert Ho. unfold resolve_order. rewrite prop_paginate_other by done.
    destruct isOne; [done|]. destruct (nullish (prop d "order")); [|done].
    destruct (getOrderBy (self w) VUndef); cbn [obind]; [done|].
    by intros [= ->].
  - intros includes Hinc Hord.
    assert (Hres : exists o, resolve_order (self w) isOne (paginate (self w) isOne d) = Ok o).
    { unfold resolve_order. rewrite prop_paginate_other by done.
      destruct isOne; [by eexists|].
      destruct (nullish (prop d "order")) eqn:En; [|by eexists].
      destruct Hord as [?|[?|[terms Ht]]]; [done..|].
      rewrite Ht. by eexists. }
    destruct Hres as [o Ho].
    destruct (assemble_total _ _ _ _ _ _ Ho Hinc) as [d' ->]. cbn [obind].
    by do 2 eexists.
Qed.

Lemma getQuery_failures_witness :
  getInclude plain
    (mkJsonQuery None 1 20 false [VStr "age"] [] [] (VObj []) (VObj [])) = Ok []
  /\ getQuery plain None false
       (mkWorld [] (mkJsonQuery None 1 20 false [VStr "age"] [] [] (VObj []) (VObj [])))
     = Throw TypeError
  /\ getOrderBy (mkJsonQuery None 1 20 false [VStr "age"] [] [] (VObj []) (VObj [])) VUndef
     = Throw TypeError.
Proof.
  destruct (getQuery_failures plain None false
              (mkWorld [] (mkJsonQuery None 1 20 false [VStr "age"] [] [] (VObj []) (VObj [])))
              [] eq_refl) as [Hfail _].
  destruct (Hfail TypeError eq_refl) as [(_ & _ & Ho)|Hi].
  - split; [reflexivity|]. split; [reflexivity|exact Ho].
  - vm_compute in Hi. discriminate Hi.
Defined.

(** ** Clauses of a resolved expand entry *)

(** For a structured entry whose relation resolves, with a registry at
    hand: the descriptor holds [separate] exactly when it is a boolean,
    [attributes] exactly when truthy and then as given, [order] exactly when
    truthy and then as [getOrderBy] resolves it, [where] exactly when truthy
    and then as the filter translator renders it.  The entry throws exactly
    when resolving its order or translating its where does, with that
    error. *)
Theorem include_entry_clauses toQuery this reg e :
  models this = Some reg ->
  truthy (prop e "name") = true ->
  truthy (prop reg (to_key (prop e "name"))) = true ->
  match include_entry toQuery this (VObj e) with
  | Ok r =>
      exists d,
        r = Some (VObj d)
        /\ assoc "separate" d
           = (if typeof (prop e "separate") =? "boolean"
              then Some (prop e "separate") else None)
        /\ assoc "attributes" d
           = (if truthy (prop e "attributes") then Some (prop e "attributes") else None)
        /\ (if truthy (prop e "order")
            then exists terms, getOrderBy this (prop e "order") = Ok terms
                               /\ assoc "order" d = Some (VArr terms)
            else assoc "order" d = None)
        /\ (if truthy (prop e "where")
            then exists w, toQuery (prop e "where") = Ok w
                           /\ assoc "where" d = Some w
            else assoc "where" d = None)
  | Throw err =>
      (truthy (prop e "order") = true /\ getOrderBy this (prop e "order") = Throw err)
      \/ (truthy (prop e "where") = true /\ toQuery (prop e "where") = Throw err)
  end.
Proof.
  intros Hreg Hname Hres. unfold include_entry.
  cbn [typeof String.eqb Ascii.eqb Bool.eqb own_props].
  rewrite Hreg, Hname. cbn [models_get obind].
  rewrite (member_own _ _ Hres).
  assert (Hor : truthy (js_or (prop reg (to_key (prop e "name")))
                              (member reg (to_key (prop e "modelName")))) = true).
  { unfold js_or. by rewrite Hres. }
  rewrite Hor. unfold _parseWhere, _validateAttributes.
  destruct (truthy (prop e "order")) eqn:Eo;
    [destruct (getOrderBy this (prop e "order")) as [terms|err] eqn:Eg;
     cbn [obind]; [|by left]|];
    cbn [obind];
    (destruct (truthy (prop e "where")) eqn:Ew;
     [destruct (toQuery (prop e "where")) as [w|err] eqn:Et;
      cbn [obind]; [|by right]|]);
    cbn [obind]; eexists; (split; [reflexivity|]);
    destruct (typeof (prop e "required") =? "boolean");
    destruct (typeof (prop e "limit") =? "number");
    destruct (typeof (prop e "separate") =? "boolean");
    destruct (truthy (prop e "attributes"));
    repeat split; try reflexivity; eexists; split; reflexivity.
Qed.

Lemma include_entry_clauses_witness :
  exists d,
    include_entry plain sample_query
      (VObj [("name", VStr "pictures"); ("order", VArr [VStr "-id"]);
             ("where", VObj [("public", VBool true)]); ("separate", VNum 1)])
    = Ok (Some (VObj d))
    /\ assoc "order" d = Some (VArr [VArr [VStr "id"; VStr "DESC"]])
    /\ assoc "where" d = Some (VObj [("public", VBool true)])
    /\ assoc "separate" d = None.
Proof.
  pose proof (include_entry_clauses plain sample_query pictures_registry
                [("name", VStr "pictures"); ("order", VArr [VStr "-id"]);
                 ("where", VObj [("public", VBool true)]); ("separate", VNum 1)]
                eq_refl eq_refl eq_refl) as H.
  destruct (include_entry plain sample_query _) as [r|err] eqn:E.
  - destruct H as (d & -> & Hsep & _ & Hord & Hwhere).
    exists d. split; [reflexivity|].
    cbn in Hord, Hwhere. destruct Hord as (terms & Ht & Ho).
    destruct Hwhere as (w & Hw & Hwd).
    vm_compute in Ht. injection Ht as <-. injection Hw as <-.
    split; [exact Ho|]. split; [exact Hwd|exact Hsep].
  - vm_compute in E. discriminate E.
Defined.

(** With a plain host and a replica host that is an SRV name, [handleSRV]
    looks that name up once; [replication.read] holds the resolved
    addresses as host and port, ordered by priority and then weight, and
    [replication.write] is the host and port of the configuration. *)
Theorem handleSRV_srv_replicas resolveSrv config h sh s slaves :
  prop config "host" = VStr h ->
  BaseConnection.ends_with h ".srv" = false ->
  prop config "slaveHost" = VStr sh ->
  BaseConnection.ends_with sh ".srv" = true ->
  resolveSrv sh = Ok slaves ->
  exists result sorted,
    BaseConnection.handleSRV resolveSrv config s
    = Ok (result,
          BaseConnection.mkStatics (BaseConnection.instance s)
            (BaseConnection.events s ++ [BaseConnection.SrvLookup sh]))
    /\ assoc "replication" result
       = Some (VObj [("read", VArr (List.map BaseConnection.host_and_port sorted));
                     ("write", VObj [("host", VStr h); ("port", prop config "port")])])
    /\ sorted ≡ₚ slaves
    /\ Sorted (fun x y => BaseConnection.address_leb x y = true) sorted.
Proof.
  intros Hh Hend Hsh Hsend Hans.
  assert (Hne : sh <> "") by (eapply ends_with_nonempty; [|exact Hsend]; done).
  assert (Hrun : BaseConnection._resolveSrv resolveSrv sh s
                 = Ok (BaseConnection.sortBy slaves,
                       BaseConnection.mkStatics (BaseConnection.instance s)
                         (BaseConnection.events s ++ [BaseConnection.SrvLookup sh]))).
  { unfold BaseConnection._resolveSrv. destruct sh; [done|]. simpl.
    unfold BaseConnection.sbind, BaseConnection.emit, BaseConnection.slift,
      BaseConnection.sret. simpl. by rewrite Hans. }
  eexists _, (BaseConnection.sortBy slaves). split; [|split; [|split]].
  - unfold BaseConnection.handleSRV.
    rewrite Hsh, (truthy_str _ Hne), Hsend, Hh, Hend. cbn [negb].
    unfold BaseConnection.sbind at 1. unfold BaseConnection.sbind at 1.
    rewrite Hrun. reflexivity.
  - apply assoc_set_prop_eq.
  - apply sortBy_perm.
  - apply sortBy_sorted.
Qed.

Lemma handleSRV_srv_replicas_witness :
  exists result s',
    BaseConnection.handleSRV
      (fun _ => Ok [BaseConnection.mkSrv "r2" (VNum 2) 5 1;
                    BaseConnection.mkSrv "r1" (VNum 1) 1 9])
      [("host", VStr "db"); ("slaveHost", VStr "replicas.srv")]
      (BaseConnection.mkStatics None [])
    = Ok (result, s')
    /\ assoc "replication" result
       = Some (VObj [("read", VArr [VObj [("host", VStr "r1"); ("port", VNum 1)];
                                    VObj [("host", VStr "r2"); ("port", VNum 2)]]);
                     ("write", VObj [("host", VStr "db"); ("port", VUndef)])]).
Proof.
  destruct (handleSRV_srv_replicas
              (fun _ => Ok [BaseConnection.mkSrv "r2" (VNum 2) 5 1;
                            BaseConnection.mkSrv "r1" (VNum 1) 1 9])
              [("host", VStr "db"); ("slaveHost", VStr "replicas.srv")]
              "db" "replicas.srv" (BaseConnection.mkStatics None []) _
              eq_refl eq_refl eq_refl eq_refl eq_refl)
    as (result & sorted & Hrun & _).
  exists result. eexists. split; [exact Hrun|].
  vm_compute in Hrun. injection Hrun as <-. reflexivity.
Defined.
